(** * Wuzzuf jobs dashboard: the cleaning pipeline of [Streamapp.py]

    A shallow embedding of the text-cleaning functions ([clean_data],
    [extract_city], [extract_country], [clean_skills],
    [clean_and_deduplicate_skills]) and of [load_data], followed by the
    properties proved about them.

    Python strings are modelled as lists of characters; a character is a
    code point below 256 (the Latin-1 range of [str]), carried by [ascii].
    The character classes [isspace], [isalpha] and the case mapping
    [lower] are the ones of [str.isspace], [str.isalpha] and [str.lower]
    on that range. *)

From Stdlib Require Import Ascii String DecimalString.
From Stdlib Require Import List ZArith Lia Bool Arith PeanoNat Sorted.
Import ListNotations.
Open Scope list_scope.

(** ** Strings *)

Definition str := list ascii.

(** String literals of the source, as character lists. *)
Definition py (s : string) : str := list_ascii_of_string s.
Arguments py s%_string.

Definition str_eqb (a b : str) : bool :=
  if list_eq_dec ascii_dec a b then true else false.

Definition code (c : ascii) : nat := nat_of_ascii c.

Definition between (lo hi n : nat) : bool := (lo <=? n) && (n <=? hi).

(** [str.isspace] on one character: TAB..CR, FS..US, SPACE, NEL, NBSP. *)
Definition isspace (c : ascii) : bool :=
  let n := code c in
  between 9 13 n || between 28 32 n || (n =? 133) || (n =? 160).

(** [str.isalpha] on one character: the letters of Latin-1. *)
Definition isalpha (c : ascii) : bool :=
  let n := code c in
  between 65 90 n || between 97 122 n
  || (n =? 170) || (n =? 181) || (n =? 186)
  || between 192 214 n || between 216 246 n || between 248 255 n.

(** [str.lower] on one character. *)
Definition lower_char (c : ascii) : ascii :=
  let n := code c in
  if between 65 90 n || between 192 214 n || between 216 222 n
  then ascii_of_nat (n + 32) else c.

Definition lower (s : str) : str := map lower_char s.

Fixpoint dropwhile (p : ascii -> bool) (s : str) : str :=
  match s with
  | [] => []
  | c :: s' => if p c then dropwhile p s' else s
  end.

Definition lstrip (s : str) : str := dropwhile isspace s.
Definition rstrip (s : str) : str := rev (dropwhile isspace (rev s)).

(** [s.strip()] *)
Definition strip (s : str) : str := rstrip (lstrip s).

Definition comma : ascii := ","%char.
Definition space : ascii := " "%char.

Definition cons_head (c : ascii) (l : list str) : list str :=
  match l with
  | [] => [[c]]
  | p :: ps => (c :: p) :: ps
  end.

(** [s.split(sep)] for a one-character separator: never returns the
    empty list. *)
Fixpoint split (sep : ascii) (s : str) : list str :=
  match s with
  | [] => [[]]
  | c :: s' =>
      if Ascii.eqb c sep then [] :: split sep s'
      else cons_head c (split sep s')
  end.

(** [sep.join(l)] *)
Fixpoint join (sep : str) (l : list str) : str :=
  match l with
  | [] => []
  | [x] => x
  | x :: xs => x ++ sep ++ join sep xs
  end.

(** [c in s] on a string and a character. *)
Definition contains (c : ascii) (s : str) : bool := existsb (Ascii.eqb c) s.

(** [s.replace(' ', '_')] *)
Definition replace_char (a b : ascii) (s : str) : str :=
  map (fun c => if Ascii.eqb c a then b else c) s.

(** [x in l] on a list of strings. *)
Definition mem (x : str) (l : list str) : bool := existsb (str_eqb x) l.

(** [list(dict.fromkeys(l))]: a dict keeps its keys in insertion order
    and a key met again keeps its first position. *)
Definition fromkeys (l : list str) : list str :=
  fold_left (fun keys x => if mem x keys then keys else keys ++ [x]) l [].

(** ** Values and results *)

(** A cell of the sheet as [read_excel] hands it over: a text, a number,
    [None], or the float NaN that stands for an empty cell. *)
Inductive cell : Type :=
  | Str (s : str)
  | Num (z : Z)
  | NoneV
  | NaN.

Inductive exn : Type :=
  | AttributeError
  | TypeError
  | KeyError.

Inductive result (A : Type) : Type :=
  | OK (a : A)
  | Error (e : exn).
Arguments OK {A} a.
Arguments Error {A} e.

Definition bind {A B} (r : result A) (f : A -> result B) : result B :=
  match r with
  | OK a => f a
  | Error e => Error e
  end.

Notation "x <- r ;; k" := (bind r (fun x => k))
  (at level 61, r at next level, right associativity).

Fixpoint mapM {A B} (f : A -> result B) (l : list A) : result (list B) :=
  match l with
  | [] => OK []
  | a :: l' => b <- f a ;; bs <- mapM f l' ;; OK (b :: bs)
  end.

(** Truth value of a cell ([if not text]): empty text, zero and [None]
    are false; NaN is a non-zero float, hence true. *)
Definition truthy (v : cell) : bool :=
  match v with
  | Str s => negb (Nat.eqb (length s) 0)
  | Num z => negb (Z.eqb z 0)
  | NoneV => false
  | NaN => true
  end.

(** [pd.isna] on a scalar. *)
Definition isna (v : cell) : bool :=
  match v with
  | NoneV | NaN => true
  | _ => false
  end.

Definition NA : str := py "N/A".

(** ** 1. Functions for cleaning *)

Definition len (s : str) : Z := Z.of_nat (length s).

(** [text[i]] for [0 <= i < len(text)]. *)
Definition char_at (text : str) (i : Z) : ascii :=
  nth (Z.to_nat i) text zero.

(** [text[a:b]] for [0 <= a]. *)
Definition slice (text : str) (a b : Z) : str :=
  firstn (Z.to_nat (b - a)) (skipn (Z.to_nat a) text).

(** [while start < len(text) and not text[start].isalpha(): start += 1] *)
Fixpoint scan_start (fuel : nat) (text : str) (start : Z) : Z :=
  match fuel with
  | O => start
  | S fuel' =>
      if (start <? len text)%Z && negb (isalpha (char_at text start))
      then scan_start fuel' text (start + 1)%Z
      else start
  end.

(** [while end >= 0 and not text[end].isalpha(): end -= 1] *)
Fixpoint scan_end (fuel : nat) (text : str) (end_ : Z) : Z :=
  match fuel with
  | O => end_
  | S fuel' =>
      if (0 <=? end_)%Z && negb (isalpha (char_at text end_))
      then scan_end fuel' text (end_ - 1)%Z
      else end_
  end.

(** The body of [clean_data] on a text. Each loop moves its index by one
    per round and stops at the latest when the index leaves the text, so
    [length text] rounds are enough (see [scan_start_exit],
    [scan_end_exit]). *)
Definition clean_text (s : str) : str :=
  let text := strip s in
  let start := scan_start (length text) text 0 in
  let end_ := scan_end (length text) text (len text - 1) in
  if (start <=? end_)%Z then slice text start (end_ + 1) else NA.

Definition clean_data (text : cell) : result str :=
  if negb (truthy text) then OK NA
  else match text with
       | Str s => OK (clean_text s)
       | _ => Error AttributeError
       end.

(** The body of the loop of [extract_city] for one element [loc]. *)
Definition city_of (loc : cell) : result str :=
  if isna loc then OK NA
  else match loc with
       | Str s =>
           if contains comma s then
             let parts := split comma s in
             OK (if 1 <? length parts
                 then strip (nth (length parts - 2) parts [])
                 else NA)
           else OK NA
       | _ => Error TypeError
       end.

Definition extract_city (location_series : list cell) : result (list str) :=
  mapM city_of location_series.

(** The body of the loop of [extract_country] for one element [loc]:
    what it appends to [updated_locations] and to [countries]. *)
Definition country_of (loc : cell) : result (str * str) :=
  if isna loc then OK (NA, NA)
  else match loc with
       | Str s =>
           if contains comma s then
             let parts := split comma s in
             let country := strip (last parts []) in
             let location_without_country :=
               strip (join (py ", ") (removelast parts)) in
             OK (location_without_country, country)
           else OK (s, NA)
       | _ => Error TypeError
       end.

Definition extract_country (location_series : list cell)
  : result (list str * list str) :=
  rows <- mapM country_of location_series ;;
  OK (map fst rows, map snd rows).

Definition job_type_keywords : list str :=
  [py "Full Time"; py "Part Time"; py "Freelance"; py "Remote";
   py "On-site"; py "Hybrid"; py "Internship"; py "Shift Based"].

Definition is_nil {A} (l : list A) : bool :=
  match l with [] => true | _ => false end.

Definition clean_skills (text : cell) : result str :=
  if isna text then OK NA
  else match text with
       | Str s =>
           let parts := map strip (split comma s) in
           let filtered_parts :=
             filter (fun part => negb (mem part job_type_keywords)) parts in
           OK (if is_nil filtered_parts then NA
               else join (py ", ") filtered_parts)
       | _ => Error AttributeError
       end.

Definition clean_and_deduplicate_skills (text : cell) : result str :=
  if isna text then OK NA
  else match text with
       | Str s =>
           let skills := map strip (split comma s) in
           let unique_skills := fromkeys skills in
           OK (if is_nil unique_skills then NA
               else join (py ", ") unique_skills)
       | _ => Error AttributeError
       end.

(** The two passes [load_data] applies to a skills cell, one after the
    other (the spec's [normalize_skills]). *)
Definition normalize_skills (raw : cell) : result str :=
  r <- clean_skills raw ;;
  clean_and_deduplicate_skills (Str r).

(** What lines 82-84 of [load_data] compute for one location cell: the
    cell goes through [clean_data], then through [extract_city] and
    [extract_country] (the spec's [split_location]); the result is
    (display location, city, country). *)
Definition split_location (raw : cell) : result (str * str * str) :=
  text <- clean_data raw ;;
  city <- city_of (Str text) ;;
  lc <- country_of (Str text) ;;
  OK (fst lc, city, snd lc).

(** ** Reference definitions

    Deduplication as it is usually specified: the first occurrence of a
    value stays, every later equal value goes, the order is kept. It is
    compared below with [fromkeys], the dict-based form of the source. *)
Fixpoint dedup_first (l : list str) : list str :=
  match l with
  | [] => []
  | x :: l' => x :: filter (fun y => negb (str_eqb y x)) (dedup_first l')
  end.

(** The parts of a skills text that survive the keyword filter. *)
Definition survivors (s : str) : list str :=
  filter (fun part => negb (mem part job_type_keywords)) (map strip (split comma s)).


(** ** Tables *)

(** A value of the cleaned table: a cell of the sheet, or the list of
    texts held by the [skills_list] column. *)
Inductive value : Type :=
  | Scalar (c : cell)
  | ListV (l : list str).

(** A [DataFrame]: the row labels and the columns in their order, each
    column with its label and one value per row. *)
Record DataFrame (A : Type) : Type := mkDF {
  index : list nat;
  columns : list (str * list A)
}.
Arguments mkDF {A} index columns.
Arguments index {A} d.
Arguments columns {A} d.

Definition labels {A} (df : DataFrame A) : list str := map fst (columns df).

(** [c in df.columns] *)
Definition has_col {A} (df : DataFrame A) (c : str) : bool := mem c (labels df).

Fixpoint lookup {A} (c : str) (cols : list (str * list A)) : option (list A) :=
  match cols with
  | [] => None
  | (c', col) :: cols' => if str_eqb c c' then Some col else lookup c cols'
  end.

(** [df[c]] for a label that names one column of the table, which is
    the case throughout [load_data] on the sheets [sheet_ok] admits; a
    label that names no column raises [KeyError]. *)
Definition getitem {A} (df : DataFrame A) (c : str) : result (list A) :=
  match lookup c (columns df) with
  | Some col => OK col
  | None => Error KeyError
  end.

Fixpoint assign {A} (c : str) (vals : list A) (cols : list (str * list A))
  : list (str * list A) :=
  match cols with
  | [] => [(c, vals)]
  | (c', col) :: cols' =>
      if str_eqb c c' then (c', vals) :: cols'
      else (c', col) :: assign c vals cols'
  end.

(** [df[c] = vals]: the column is replaced where it stands, or added
    after the last one. *)
Definition setitem {A} (df : DataFrame A) (c : str) (vals : list A) : DataFrame A :=
  mkDF (index df) (assign c vals (columns df)).

(** [df.drop(columns=cs)] for labels [cs] that are all present. *)
Definition drop {A} (df : DataFrame A) (cs : list str) : DataFrame A :=
  mkDF (index df) (filter (fun col => negb (mem (fst col) cs)) (columns df)).

(** The rows of [l] whose flag in [keep] is set (boolean indexing). *)
Fixpoint select {A} (keep : list bool) (l : list A) : list A :=
  match keep, l with
  | b :: keep', x :: l' => if b then x :: select keep' l' else select keep' l'
  | _, _ => []
  end.

(** What [drop_duplicates] compares: missing values ([None], NaN) count
    as one and the same value. *)
Inductive key : Type :=
  | KStr (s : str)
  | KNum (z : Z)
  | KNA
  | KList (l : list str).

Definition key_of (v : value) : key :=
  match v with
  | Scalar (Str s) => KStr s
  | Scalar (Num z) => KNum z
  | Scalar NoneV | Scalar NaN => KNA
  | ListV l => KList l
  end.

Definition key_eq_dec (a b : key) : {a = b} + {a <> b}.
Proof.
  decide equality.
  - apply (list_eq_dec ascii_dec).
  - apply Z.eq_dec.
  - apply (list_eq_dec (list_eq_dec ascii_dec)).
Defined.

Definition rowkey : Type := (key * key)%type.

Definition rowkey_eqb (a b : rowkey) : bool :=
  if key_eq_dec (fst a) (fst b)
  then (if key_eq_dec (snd a) (snd b) then true else false)
  else false.

(** [df.duplicated(keep='first')] on the list of row keys: a row is a
    duplicate when its key was met in an earlier row. *)
Fixpoint duplicated_from (seen : list rowkey) (keys : list rowkey) : list bool :=
  match keys with
  | [] => []
  | k :: keys' =>
      if existsb (rowkey_eqb k) seen
      then true :: duplicated_from seen keys'
      else false :: duplicated_from (k :: seen) keys'
  end.

Definition duplicated (keys : list rowkey) : list bool := duplicated_from [] keys.

(** [df.empty]: no row or no column. *)
Definition empty {A} (df : DataFrame A) : bool :=
  is_nil (index df) || is_nil (columns df).

(** [df.drop_duplicates(subset=[a, b])]: an empty table is handed back
    as it is, before the labels are looked at; otherwise the rows that
    are not duplicates are kept, with their labels. *)
Definition drop_duplicates (df : DataFrame value) (a b : str)
  : result (DataFrame value) :=
  if empty df then OK df
  else
    ca <- getitem df a ;;
    cb <- getitem df b ;;
    let keep := map negb (duplicated (combine (map key_of ca) (map key_of cb))) in
    OK (mkDF (select keep (index df))
             (map (fun col => (fst col, select keep (snd col))) (columns df))).

(** ** 2. Load and preprocess data *)

(** The sheet as [read_excel] parses it: the header cells with the
    column under each. *)
Definition sheet : Type := list (str * list cell).

Definition nrows (sh : sheet) : nat :=
  match sh with
  | [] => 0
  | (_, col) :: _ => length col
  end.

Definition read_excel (sh : sheet) : DataFrame cell :=
  mkDF (seq 0 (nrows sh)) sh.

(** [.str.strip().str.lower().str.replace(' ', '_', regex=False)] on a
    column label. *)
Definition normalize_label (c : str) : str :=
  replace_char space "_"%char (lower (strip c)).

Definition rename_columns {A} (df : DataFrame A) : DataFrame A :=
  mkDF (index df) (map (fun col => (normalize_label (fst col), snd col)) (columns df)).

(** [re.split(r',\s*', s)]: a comma takes the white space after it
    along; [skip] tells that the scan stands right behind a comma. *)
Fixpoint re_split_from (skip : bool) (s : str) : list str :=
  match s with
  | [] => [[]]
  | c :: s' =>
      if skip && isspace c then re_split_from true s'
      else if Ascii.eqb c comma then [] :: re_split_from true s'
      else cons_head c (re_split_from false s')
  end.

Definition re_split (s : str) : list str := re_split_from false s.

(** [.fillna('')] on one cell. *)
Definition fillna (c : cell) : cell := if isna c then Str [] else c.

(** [.astype(str)] on one cell. *)
Definition astype_str (c : cell) : str :=
  match c with
  | Str s => s
  | Num z => py (NilZero.string_of_int (Z.to_int z))
  | NoneV => py "None"
  | NaN => py "nan"
  end.

Definition to_values (df : DataFrame cell) : DataFrame value :=
  mkDF (index df) (map (fun col => (fst col, map Scalar (snd col))) (columns df)).

(** Lines 81-87: the location column. *)
Definition clean_location (df : DataFrame cell) : result (DataFrame cell) :=
  if has_col df (py "location") then
    location <- getitem df (py "location") ;;
    cleaned <- mapM clean_data location ;;
    let df := setitem df (py "location") (map Str cleaned) in
    location <- getitem df (py "location") ;;
    cities <- extract_city location ;;
    let df := setitem df (py "city") (map Str cities) in
    location <- getitem df (py "location") ;;
    lc <- extract_country location ;;
    let df := setitem df (py "location") (map Str (fst lc)) in
    let df := setitem df (py "country") (map Str (snd lc)) in
    OK df
  else
    let df := setitem df (py "city") (repeat (Str NA) (length (index df))) in
    let df := setitem df (py "country") (repeat (Str NA) (length (index df))) in
    OK df.

(** Lines 89-99: the skills column and the [skills_list] column, the one
    column that holds lists. *)
Definition clean_skills_column (df : DataFrame cell) : result (DataFrame value) :=
  if has_col df (py "skills") then
    skills <- getitem df (py "skills") ;;
    cleaned <- mapM clean_skills skills ;;
    let df := setitem df (py "skills") (map Str cleaned) in
    skills <- getitem df (py "skills") ;;
    unique <- mapM clean_and_deduplicate_skills skills ;;
    let df := setitem df (py "skills") (map Str unique) in
    skills <- getitem df (py "skills") ;;
    let lists := map (fun c => re_split (astype_str (fillna c))) skills in
    OK (setitem (to_values df) (py "skills_list") (map ListV lists))
  else
    OK (setitem (to_values df) (py "skills_list")
          (repeat (ListV []) (length (index df)))).

(** Line 102. *)
Definition drop_unnecessary (df : DataFrame value) : DataFrame value :=
  drop df (filter (has_col df) [py "salary"; py "location"]).

Definition load_data (sh : sheet) : result (DataFrame value) :=
  let df := read_excel sh in
  let df := rename_columns df in
  df <- clean_location df ;;
  df <- clean_skills_column df ;;
  let df := drop_unnecessary df in
  drop_duplicates df (py "job_title") (py "company").

(** ** Sheets the model covers

    Every column has one cell per row, and no two labels fall together
    once normalized (a [DataFrame] with a repeated label answers [df[c]]
    with a table, not a column). *)
Fixpoint distinct (l : list str) : bool :=
  match l with
  | [] => true
  | x :: l' => negb (mem x l') && distinct l'
  end.

Definition sheet_ok (sh : sheet) : bool :=
  forallb (fun col => length (snd col) =? nrows sh) sh
  && distinct (map (fun col => normalize_label (fst col)) sh).

(** ** Predicates used in the statements *)

Definition no_comma (p : str) : Prop := contains comma p = false.

Definition stripped (p : str) : Prop := strip p = p.

Definition not_keyword (part : str) : bool := negb (mem part job_type_keywords).

(** The columns of the sheet under their normalized labels: the table
    [load_data] starts from. *)
Definition renamed (sh : sheet) : list (str * list cell) :=
  columns (rename_columns (read_excel sh)).

(** The value of column [c] in the row at position [p], if there is
    one. *)
Definition cell_at {A} (cols : list (str * list A)) (c : str) (p : nat) : option A :=
  match lookup c cols with
  | Some col => nth_error col p
  | None => None
  end.

(** The key of a cell of the sheet. *)
Definition cell_key (c : cell) : key := key_of (Scalar c).

Definition sheet_keys (titles companies : list cell) : list rowkey :=
  combine (map cell_key titles) (map cell_key companies).

(** The key [drop_duplicates] gives the row at position [i] of the
    sheet. *)
Definition sheet_key (sh : sheet) (i : nat) : option rowkey :=
  match cell_at (renamed sh) (py "job_title") i, cell_at (renamed sh) (py "company") i with
  | Some t, Some c => Some (key_of (Scalar t), key_of (Scalar c))
  | _, _ => None
  end.

(** The key of the row at position [p] of a cleaned table. *)
Definition row_key (df : DataFrame value) (p : nat) : option rowkey :=
  match cell_at (columns df) (py "job_title") p, cell_at (columns df) (py "company") p with
  | Some t, Some c => Some (key_of t, key_of c)
  | _, _ => None
  end.

(** The labels [load_data] writes or drops; every other column passes
    through. *)
Definition reserved : list str :=
  [py "location"; py "salary"; py "city"; py "country"; py "skills"; py "skills_list"].

Definition is_ok {A} (r : result A) : bool :=
  match r with OK _ => true | Error _ => false end.

(** ** Sample sheets *)

(** Two postings of the same job at the same company. *)
Definition demo_sheet : sheet :=
  [ (py "Job Title", [Str (py "Dev"); Str (py "Dev")]);
    (py "Company", [Str (py "Acme"); Str (py "Acme")]);
    (py "Location", [Str (py "Giza, Cairo, Egypt"); Str (py "X")]);
    (py "Skills", [Str (py "C++, Remote, C++"); Str (py "Go")]) ].

Definition demo_table : DataFrame value :=
  mkDF [0]
    [ (py "job_title", [Scalar (Str (py "Dev"))]);
      (py "company", [Scalar (Str (py "Acme"))]);
      (py "skills", [Scalar (Str (py "C++"))]);
      (py "city", [Scalar (Str (py "Cairo"))]);
      (py "country", [Scalar (Str (py "Egypt"))]);
      (py "skills_list", [ListV [py "C++"]]) ].

(** A sheet with a salary column and neither location nor skills. *)
Definition salary_sheet : sheet :=
  [ (py "Job Title", [Str (py "Dev"); Str (py "Ops")]);
    (py "Company", [Str (py "Acme"); NaN]);
    (py "Salary", [Num 5000; NaN]);
    (py "Job Type", [Str (py "Full Time"); Str (py "Remote")]) ].

Definition salary_table : DataFrame value :=
  mkDF [0; 1]
    [ (py "job_title", [Scalar (Str (py "Dev")); Scalar (Str (py "Ops"))]);
      (py "company", [Scalar (Str (py "Acme")); Scalar NaN]);
      (py "job_type", [Scalar (Str (py "Full Time")); Scalar (Str (py "Remote"))]);
      (py "city", [Scalar (Str NA); Scalar (Str NA)]);
      (py "country", [Scalar (Str NA); Scalar (Str NA)]);
      (py "skills_list", [ListV []; ListV []]) ].

(** A sheet without a company column. *)
Definition no_company_sheet : sheet :=
  [ (py "Job Title", [Str (py "Dev")]) ].

(** A sheet with an empty location cell, which [read_excel] hands over
    as NaN. *)
Definition empty_location_sheet : sheet :=
  [ (py "Job Title", [Str (py "Dev"); Str (py "Ops")]);
    (py "Company", [Str (py "Acme"); Str (py "Acme")]);
    (py "Location", [Str (py "Cairo, Egypt"); NaN]) ].

(** Three postings: a full location, a location without a comma, and a
    location cell that is [None]. *)
Definition locations_sheet : sheet :=
  [ (py "Job Title", [Str (py "Dev"); Str (py "Ops"); Str (py "QA")]);
    (py "Company", [Str (py "Acme"); Str (py "Acme"); Str (py "Beta")]);
    (py "Location", [Str (py "Giza, Cairo, Egypt"); Str (py "Remote"); NoneV]) ].

Definition locations_table : DataFrame value :=
  mkDF [0; 1; 2]
    [ (py "job_title", [Scalar (Str (py "Dev")); Scalar (Str (py "Ops"));
                        Scalar (Str (py "QA"))]);
      (py "company", [Scalar (Str (py "Acme")); Scalar (Str (py "Acme"));
                      Scalar (Str (py "Beta"))]);
      (py "city", [Scalar (Str (py "Cairo")); Scalar (Str NA); Scalar (Str NA)]);
      (py "country", [Scalar (Str (py "Egypt")); Scalar (Str NA); Scalar (Str NA)]);
      (py "skills_list", [ListV []; ListV []; ListV []]) ].

(** A posting whose location has an empty part before the country. *)
Definition empty_city_sheet : sheet :=
  [ (py "Job Title", [Str (py "Dev")]);
    (py "Company", [Str (py "Acme")]);
    (py "Location", [Str (py "Giza,,Egypt")]) ].

(** A sheet with its header row only, and no company column. *)
Definition header_only_sheet : sheet :=
  [ (py "Job Title", []); (py "Location", []) ].

(** ** Further definitions used in the statements *)

Definition has_letter (s : str) : bool := existsb isalpha s.

(** A text that is empty or has no white space at either end. *)
Definition ends_not_space (u : str) : Prop :=
  match u with
  | [] => True
  | a :: _ => isspace a = false /\ isspace (last u zero) = false
  end.

(** What [.str.replace(' ', '_')] does to one character. *)
Definition underscore_space (c : ascii) : ascii :=
  if Ascii.eqb c space then "_"%char else c.

(** The location cells [clean_data] accepts: a text, [None], or the
    number zero. *)
Definition location_cell_ok (v : cell) : bool :=
  match v with
  | Str _ | NoneV => true
  | Num z => Z.eqb z 0
  | NaN => false
  end.

(** The skills cells [clean_skills] accepts: anything but a number. *)
Definition skills_cell_ok (v : cell) : bool :=
  match v with
  | Num _ => false
  | _ => true
  end.

Definition column_ok (ok : cell -> bool) (sh : sheet) (c : str) : bool :=
  match lookup c (renamed sh) with
  | Some col => forallb ok col
  | None => true
  end.

Definition cells_ok (sh : sheet) : bool :=
  column_ok location_cell_ok sh (py "location")
  && column_ok skills_cell_ok sh (py "skills").

Definition keys_present (sh : sheet) : bool :=
  has_col (rename_columns (read_excel sh)) (py "job_title")
  && has_col (rename_columns (read_excel sh)) (py "company").

(** Every column has one value per row label. *)
Definition regular {A} (df : DataFrame A) : Prop :=
  Forall (fun col => length (snd col) = length (index df)) (columns df).

(** ** 3. Main App: filters and KPI metrics

    The parts of [main] that compute on the table; the widgets and the
    charts are left out. *)

(** A choice made in a [multiselect]: one of its options, which are the
    values of a column without the missing ones. *)
Inductive atom : Type :=
  | AStr (s : str)
  | ANum (z : Z).

Definition atom_key (a : atom) : key :=
  match a with
  | AStr s => KStr s
  | ANum z => KNum z
  end.

(** [.isin(values)] on one value. *)
Definition isin (values : list atom) (v : value) : bool :=
  existsb (fun a => if key_eq_dec (key_of v) (atom_key a) then true else false) values.

(** [df[mask]] *)
Definition boolean_index (df : DataFrame value) (mask : list bool) : DataFrame value :=
  mkDF (select mask (index df))
       (map (fun col => (fst col, select mask (snd col))) (columns df)).

(** [df[df[c].isin(values)]] *)
Definition filter_isin (df : DataFrame value) (c : str) (values : list atom)
  : result (DataFrame value) :=
  col <- getitem df c ;;
  OK (boolean_index df (map (isin values) col)).

(** Lines 147-153. An empty selection means no restriction. *)
Definition apply_filters (df : DataFrame value) (cities companies job_types : list atom)
  : result (DataFrame value) :=
  let filtered_df := df in
  filtered_df <- (if is_nil cities then OK filtered_df
                  else filter_isin filtered_df (py "city") cities) ;;
  filtered_df <- (if is_nil companies then OK filtered_df
                  else filter_isin filtered_df (py "company") companies) ;;
  if negb (is_nil job_types) && has_col filtered_df (py "job_type")
  then filter_isin filtered_df (py "job_type") job_types
  else OK filtered_df.

(** [len(filtered_df)] *)
Definition total_jobs (df : DataFrame value) : nat := length (index df).

(** [.nunique()]: the number of distinct values, missing ones left
    out. *)
Definition nunique (col : list value) : nat :=
  length (nodup key_eq_dec
            (filter (fun k => if key_eq_dec k KNA then false else true)
                    (map key_of col))).

(** Line 158. *)
Definition unique_companies (df : DataFrame value) : result nat :=
  if has_col df (py "company")
  then col <- getitem df (py "company") ;; OK (nunique col)
  else OK 0.

(** [for skill in sub]: a list gives its entries, a text its
    characters, anything else is not iterable. *)
Definition iterate (sub : value) : result (list str) :=
  match sub with
  | ListV l => OK l
  | Scalar (Str s) => OK (map (fun c => [c]) s)
  | Scalar _ => Error TypeError
  end.

(** Line 162. *)
Definition all_skills (df : DataFrame value) : result (list str) :=
  column <- getitem df (py "skills_list") ;;
  subs <- mapM iterate column ;;
  OK (concat subs).

(** Line 159: the size of the set of all skills. *)
Definition unique_skills (df : DataFrame value) : result nat :=
  skills <- all_skills df ;;
  OK (length (dedup_first skills)).

(** The mask a selection puts on a table: every row when nothing is
    selected or the column is not there. *)
Definition selection_mask (df : DataFrame value) (c : str) (values : list atom)
  : list bool :=
  if is_nil values then repeat true (length (index df))
  else match lookup c (columns df) with
       | Some col => map (isin values) col
       | None => repeat true (length (index df))
       end.

Fixpoint and_mask (m1 m2 : list bool) : list bool :=
  match m1, m2 with
  | b1 :: m1', b2 :: m2' => (b1 && b2) :: and_mask m1' m2'
  | _, _ => []
  end.

(** [fdf] is [df] after some boolean selections of rows. *)
Inductive restricts (df : DataFrame value) : DataFrame value -> Prop :=
  | restricts_same : restricts df df
  | restricts_step fdf mask :
      restricts df fdf -> restricts df (boolean_index fdf mask).

(** * Examples *)

Example clean_data_ex1 : clean_data (Str (py "  12 Cairo, Egypt.. ")) = OK (py "Cairo, Egypt").
Proof. reflexivity. Qed.

Example normalize_skills_ex :
  normalize_skills (Str (py "Python, Full Time, Python, SQL")) = OK (py "Python, SQL").
Proof. reflexivity. Qed.

Example split_location_ex2 :
  split_location (Str (py "Remote")) = OK (py "Remote", NA, NA).
Proof. reflexivity. Qed.

Example clean_data_ex2 : clean_data (Str (py "123!!!")) = OK NA.
Proof. reflexivity. Qed.

Example split_location_ex1 :
  split_location (Str (py "Cairo, Egypt")) = OK (py "Cairo", py "Cairo", py "Egypt").
Proof. reflexivity. Qed.

Example load_data_demo : load_data demo_sheet = OK demo_table.
Proof. vm_compute. reflexivity. Qed.

Example load_data_salary : load_data salary_sheet = OK salary_table.
Proof. vm_compute. reflexivity. Qed.

(** * Properties *)

(** ** Characters and trimming *)

Lemma isspace_not_alpha c : isspace c = true -> isalpha c = false.
Proof.
  destruct c as [[] [] [] [] [] [] [] []]; vm_compute; congruence.
Qed.

Lemma dropwhile_suffix p s : exists ws, s = ws ++ dropwhile p s /\ Forall (fun c => p c = true) ws.
Proof.
  induction s as [|c s IH]; simpl.
  - exists []. split; [reflexivity | constructor].
  - destruct (p c) eqn:E.
    + destruct IH as (ws & Hs & Hws). exists (c :: ws). split.
      * simpl. f_equal. exact Hs.
      * constructor; assumption.
    + exists []. split; [reflexivity | constructor].
Qed.

Lemma dropwhile_keeps p s c : In c s -> p c = false -> In c (dropwhile p s).
Proof.
  intros Hin Hp. destruct (dropwhile_suffix p s) as (ws & Hs & Hws).
  rewrite Hs in Hin. apply in_app_or in Hin. destruct Hin as [Hin | Hin]; [|exact Hin].
  rewrite Forall_forall in Hws. apply Hws in Hin. congruence.
Qed.

Lemma dropwhile_incl p s c : In c (dropwhile p s) -> In c s.
Proof.
  induction s as [|a s IH]; simpl; [tauto|].
  destruct (p a); simpl; intuition.
Qed.

Lemma strip_keeps s c : In c s -> isspace c = false -> In c (strip s).
Proof.
  intros Hin Hc. unfold strip, rstrip, lstrip.
  apply in_rev. rewrite rev_involutive.
  apply dropwhile_keeps; [|exact Hc].
  apply in_rev. rewrite rev_involutive. (* In c (rev (rev _)) *)
  apply dropwhile_keeps; assumption.
Qed.

Lemma strip_incl s c : In c (strip s) -> In c s.
Proof.
  unfold strip, rstrip, lstrip. intros H.
  apply in_rev in H. apply dropwhile_incl in H. apply in_rev in H.
  apply dropwhile_incl in H. exact H.
Qed.

(** ** The two scanning loops of [clean_data] *)

Lemma scan_start_spec fuel : forall text start,
  (0 <= start <= len text)%Z ->
  (len text - start <= Z.of_nat fuel)%Z ->
  let r := scan_start fuel text start in
  (start <= r <= len text)%Z
  /\ (forall j, (start <= j < r)%Z -> isalpha (char_at text j) = false)
  /\ ((r < len text)%Z -> isalpha (char_at text r) = true).
Proof.
  induction fuel as [|fuel IH]; intros text start Hs Hf; simpl.
  - repeat split; try lia.
  - destruct (start <? len text)%Z eqn:Hlt; simpl.
    + apply Z.ltb_lt in Hlt.
      destruct (isalpha (char_at text start)) eqn:Ha; simpl.
      * repeat split; try lia. intros _. exact Ha.
      * destruct (IH text (start + 1)%Z) as (H1 & H2 & H3); try lia.
        repeat split; try lia.
        -- intros j Hj. destruct (Z.eq_dec j start) as [->|Hne]; [exact Ha|].
           apply H2. lia.
        -- exact H3.
    + apply Z.ltb_ge in Hlt. repeat split; try lia.
Qed.

Lemma scan_end_spec fuel : forall text end_,
  (-1 <= end_ < len text)%Z ->
  (end_ + 1 <= Z.of_nat fuel)%Z ->
  let r := scan_end fuel text end_ in
  (-1 <= r <= end_)%Z
  /\ (forall j, (r < j <= end_)%Z -> isalpha (char_at text j) = false)
  /\ ((0 <= r)%Z -> isalpha (char_at text r) = true).
Proof.
  induction fuel as [|fuel IH]; intros text end_ Hs Hf; simpl.
  - repeat split; try lia.
  - destruct (0 <=? end_)%Z eqn:Hle; simpl.
    + apply Z.leb_le in Hle.
      destruct (isalpha (char_at text end_)) eqn:Ha; simpl.
      * repeat split; try lia. intros _. exact Ha.
      * destruct (IH text (end_ - 1)%Z) as (H1 & H2 & H3); try lia.
        repeat split; try lia.
        -- intros j Hj. destruct (Z.eq_dec j end_) as [->|Hne]; [exact Ha|].
           apply H2. lia.
        -- exact H3.
    + apply Z.leb_gt in Hle. repeat split; try lia.
Qed.

(** The loops have left their guards within the rounds [clean_text]
    grants them: more rounds change nothing. *)
Lemma scan_start_exit text extra :
  scan_start (length text + extra) text 0 = scan_start (length text) text 0.
Proof.
  assert (G : forall fuel start, (0 <= start <= len text)%Z ->
            (len text - start <= Z.of_nat fuel)%Z ->
            scan_start (fuel + extra) text start = scan_start fuel text start).
  { induction fuel as [|fuel IH]; intros start Hs Hf; simpl.
    - assert (start = len text) by lia. subst start.
      destruct extra; simpl; [reflexivity|].
      rewrite Z.ltb_irrefl. reflexivity.
    - destruct ((start <? len text)%Z && negb (isalpha (char_at text start))) eqn:E;
        [|reflexivity].
      apply andb_prop in E. destruct E as [E _]. apply Z.ltb_lt in E.
      apply IH; lia. }
  apply G; unfold len; lia.
Qed.

Lemma scan_end_exit text extra :
  scan_end (length text + extra) text (len text - 1) = scan_end (length text) text (len text - 1).
Proof.
  assert (G : forall fuel end_, (-1 <= end_ < len text)%Z ->
            (end_ + 1 <= Z.of_nat fuel)%Z ->
            scan_end (fuel + extra) text end_ = scan_end fuel text end_).
  { induction fuel as [|fuel IH]; intros end_ Hs Hf; simpl.
    - assert (end_ = -1)%Z by lia. subst end_.
      destruct extra; reflexivity.
    - destruct ((0 <=? end_)%Z && negb (isalpha (char_at text end_))) eqn:E;
        [|reflexivity].
      apply andb_prop in E. destruct E as [E _]. apply Z.leb_le in E.
      apply IH; lia. }
  apply G; unfold len; lia.
Qed.

(** ** [clean_data] *)

Lemma slice_decomp text a b :
  (0 <= a <= b)%Z -> (b <= len text)%Z ->
  text = firstn (Z.to_nat a) text ++ slice text a b ++ skipn (Z.to_nat b) text.
Proof.
  intros Hab Hb. unfold slice.
  replace (Z.to_nat b) with (Z.to_nat (b - a) + Z.to_nat a) by lia.
  rewrite <- skipn_skipn.
  rewrite firstn_skipn, firstn_skipn. reflexivity.
Qed.

Lemma Forall_by_index (P : ascii -> Prop) (l : str) :
  (forall j, j < length l -> P (nth j l zero)) -> Forall P l.
Proof.
  intros H. apply Forall_forall. intros x Hx.
  destruct (In_nth l x zero Hx) as (j & Hj & <-). apply H. exact Hj.
Qed.

(** The shape of the text [clean_text] cuts out of an already stripped
    text that holds a letter. *)
Lemma clean_text_shape s :
  (exists c, In c (strip s) /\ isalpha c = true) ->
  exists pre post a z mid,
    strip s = pre ++ clean_text s ++ post
    /\ Forall (fun c => isalpha c = false) pre
    /\ Forall (fun c => isalpha c = false) post
    /\ clean_text s = a :: mid
    /\ isalpha a = true
    /\ last (clean_text s) zero = z
    /\ isalpha z = true.
Proof.
  intros (c & Hin & Hc). unfold clean_text.
  set (text := strip s) in *.
  destruct (scan_start_spec (length text) text 0%Z) as (S1 & S2 & S3);
    [unfold len; lia | unfold len; lia |].
  destruct (scan_end_spec (length text) text (len text - 1)%Z) as (E1 & E2 & E3);
    [unfold len; lia | unfold len; lia |].
  set (st := scan_start (length text) text 0) in *.
  set (en := scan_end (length text) text (len text - 1)) in *.
  destruct (In_nth text c zero Hin) as (k & Hk & Hnth).
  assert (Hck : isalpha (char_at text (Z.of_nat k)) = true).
  { unfold char_at. rewrite Nat2Z.id, Hnth. exact Hc. }
  assert (Hst : (st <= Z.of_nat k)%Z).
  { destruct (Z_le_gt_dec st (Z.of_nat k)) as [?|Hgt]; [assumption|].
    rewrite S2 in Hck by lia. discriminate. }
  assert (Hen : (Z.of_nat k <= en)%Z).
  { destruct (Z_le_gt_dec (Z.of_nat k) en) as [?|Hgt]; [assumption|].
    rewrite E2 in Hck by (unfold len; lia). discriminate. }
  assert (Hlen : (Z.of_nat k < len text)%Z) by (unfold len; lia).
  replace (st <=? en)%Z with true by (symmetry; apply Z.leb_le; lia).
  pose proof (slice_decomp text st (en + 1)) as Hd.
  set (r := slice text st (en + 1)) in *.
  assert (Hr : length r = Z.to_nat (en + 1 - st)).
  { unfold r, slice. rewrite length_firstn, length_skipn. unfold len in *. lia. }
  assert (Hnthr : forall j, j < length r -> nth j r zero = char_at text (st + Z.of_nat j)).
  { intros j Hj. unfold r, slice, char_at.
    rewrite nth_firstn. replace (j <? Z.to_nat (en + 1 - st)) with true
      by (symmetry; apply Nat.ltb_lt; lia).
    rewrite nth_skipn. f_equal. lia. }
  destruct r as [|a mid] eqn:Er; [simpl in Hr; lia|].
  exists (firstn (Z.to_nat st) text), (skipn (Z.to_nat (en + 1)) text), a,
         (last (a :: mid) zero), mid.
  split; [apply Hd; lia|].
  split.
  { apply Forall_by_index. intros j Hj. rewrite length_firstn in Hj.
    rewrite nth_firstn. replace (j <? Z.to_nat st) with true
      by (symmetry; apply Nat.ltb_lt; lia).
    specialize (S2 (Z.of_nat j)). unfold char_at in S2. rewrite Nat2Z.id in S2.
    apply S2. lia. }
  split.
  { apply Forall_by_index. intros j Hj. rewrite length_skipn in Hj.
    rewrite nth_skipn.
    specialize (E2 (en + 1 + Z.of_nat j)%Z). unfold char_at in E2.
    replace (Z.to_nat (en + 1 + Z.of_nat j)) with (Z.to_nat (en + 1) + j) in E2 by lia.
    apply E2. unfold len. lia. }
  split; [reflexivity|].
  split.
  { specialize (Hnthr 0). simpl in Hnthr. rewrite Hnthr by lia.
    rewrite Z.add_0_r. apply S3. lia. }
  split; [reflexivity|].
  assert (Hl : last (a :: mid) zero = nth (length (a :: mid) - 1) (a :: mid) zero).
  { clear. generalize a. induction mid as [|b mid IH]; intros a0; [reflexivity|].
    change (last (a0 :: b :: mid) zero) with (last (b :: mid) zero).
    rewrite IH. simpl. rewrite Nat.sub_0_r. reflexivity. }
  rewrite Hl, Hnthr by (simpl; lia).
  replace (st + Z.of_nat (length (a :: mid) - 1))%Z with en by lia.
  apply E3. lia.
Qed.

(** C3. For every string [s] holding at least one alphabetic character,
    [clean_data] returns a text that starts and ends with an alphabetic
    character and is a contiguous piece of [s.strip()]: what stands
    before it and after it in [s.strip()] holds no alphabetic character,
    so it runs from the first to the last alphabetic character, with
    what lies between untouched. *)
Theorem clean_data_between_letters (s : str) :
  (exists c, In c s /\ isalpha c = true) ->
  exists r pre post a mid,
    clean_data (Str s) = OK r
    /\ strip s = pre ++ r ++ post
    /\ Forall (fun c => isalpha c = false) pre
    /\ Forall (fun c => isalpha c = false) post
    /\ r = a :: mid
    /\ isalpha a = true
    /\ isalpha (last r zero) = true.
Proof.
  intros (c & Hin & Hc).
  assert (Hs : exists c, In c (strip s) /\ isalpha c = true).
  { exists c. split; [|exact Hc]. apply strip_keeps; [exact Hin|].
    destruct (isspace c) eqn:E; [|reflexivity].
    apply isspace_not_alpha in E. congruence. }
  destruct (clean_text_shape s Hs) as (pre & post & a & z & mid & H1 & H2 & H3 & H4 & H5 & H6 & H7).
  exists (clean_text s), pre, post, a, mid.
  split.
  { unfold clean_data. destruct s as [|x s]; [destruct Hin|]. reflexivity. }
  repeat split; try assumption. rewrite H6. exact H7.
Qed.

Lemma clean_data_between_letters_witness :
  exists r pre post a mid,
    clean_data (Str (py " 12 Cairo, Egypt.. ")) = OK r
    /\ strip (py " 12 Cairo, Egypt.. ") = pre ++ r ++ post
    /\ Forall (fun c => isalpha c = false) pre
    /\ Forall (fun c => isalpha c = false) post
    /\ r = a :: mid
    /\ isalpha a = true
    /\ isalpha (last r zero) = true.
Proof.
  apply (clean_data_between_letters (py " 12 Cairo, Egypt.. ")).
  exists "C"%char. split; [simpl; tauto | reflexivity].
Defined.

(** ** [split] and [join] *)

Lemma contains_cons c x p : contains c (x :: p) = Ascii.eqb c x || contains c p.
Proof. reflexivity. Qed.

Lemma no_comma_cons x p : no_comma (x :: p) <-> Ascii.eqb x comma = false /\ no_comma p.
Proof.
  unfold no_comma. rewrite contains_cons, orb_false_iff, (Ascii.eqb_sym comma x).
  reflexivity.
Qed.

Lemma split_nonempty sep s : split sep s <> [].
Proof.
  destruct s as [|c s]; simpl; [discriminate|].
  destruct (Ascii.eqb c sep); [discriminate|].
  destruct (split sep s); discriminate.
Qed.

Lemma split_parts_no_sep s : Forall no_comma (split comma s).
Proof.
  induction s as [|c s IH]; cbn [split].
  - repeat constructor.
  - destruct (Ascii.eqb c comma) eqn:E.
    + constructor; [reflexivity | exact IH].
    + destruct (split comma s) as [|p ps]; cbn [cons_head].
      * repeat constructor. apply no_comma_cons. split; [exact E | reflexivity].
      * inversion IH; subst. constructor; [|assumption].
        apply no_comma_cons. split; assumption.
Qed.

Lemma split_app_sep a b :
  no_comma a -> split comma (a ++ comma :: b) = a :: split comma b.
Proof.
  induction a as [|c a IH]; intros Ha.
  - cbn [app split]. rewrite Ascii.eqb_refl. reflexivity.
  - apply no_comma_cons in Ha. destruct Ha as [Hc Ha].
    cbn [app split]. rewrite Hc, IH by exact Ha. reflexivity.
Qed.

Lemma split_no_sep a : no_comma a -> split comma a = [a].
Proof.
  induction a as [|c a IH]; intros Ha.
  - reflexivity.
  - apply no_comma_cons in Ha. destruct Ha as [Hc Ha].
    cbn [split]. rewrite Hc, IH by exact Ha. reflexivity.
Qed.

(** Splitting a text joined with [", "] gives the parts back, each but
    the first behind the space of the separator. *)
Lemma split_join x l :
  Forall no_comma (x :: l) ->
  split comma (join (py ", ") (x :: l)) = x :: map (cons space) l.
Proof.
  revert x. induction l as [|y l IH]; intros x H.
  - simpl. apply split_no_sep. inversion H; assumption.
  - inversion H as [|? ? Hx Hl]; subst.
    change (join (py ", ") (x :: y :: l))
      with (x ++ comma :: (space :: join (py ", ") (y :: l))).
    rewrite split_app_sep by exact Hx.
    f_equal.
    change (split comma (space :: join (py ", ") (y :: l)))
      with (cons_head space (split comma (join (py ", ") (y :: l)))).
    rewrite IH by exact Hl. reflexivity.
Qed.

Lemma dropwhile_idem p s : dropwhile p (dropwhile p s) = dropwhile p s.
Proof.
  induction s as [|c s IH]; simpl; [reflexivity|].
  destruct (p c) eqn:E; [exact IH|]. simpl. rewrite E. reflexivity.
Qed.

Lemma dropwhile_head p s : dropwhile p s = [] \/ exists c t, dropwhile p s = c :: t /\ p c = false.
Proof.
  induction s as [|c s IH]; simpl; [left; reflexivity|].
  destruct (p c) eqn:E; [exact IH|]. right. exists c, s. split; [reflexivity | exact E].
Qed.

Lemma dropwhile_app_stop p a c b : p c = false ->
  dropwhile p (a ++ c :: b) = dropwhile p a ++ c :: b.
Proof.
  intros Hc. induction a as [|x a IH]; simpl.
  - rewrite Hc. reflexivity.
  - destruct (p x); [exact IH | reflexivity].
Qed.

Lemma rstrip_idem s : rstrip (rstrip s) = rstrip s.
Proof.
  unfold rstrip. rewrite rev_involutive, dropwhile_idem. reflexivity.
Qed.

Lemma rstrip_head c t : isspace c = false -> exists t', rstrip (c :: t) = c :: t'.
Proof.
  intros Hc. unfold rstrip. cbn [rev].
  rewrite dropwhile_app_stop by exact Hc.
  rewrite rev_app_distr. cbn [rev app]. eexists. reflexivity.
Qed.

Lemma strip_stripped s : stripped (strip s).
Proof.
  unfold stripped, strip at 1.
  assert (H : lstrip (strip s) = strip s).
  { unfold strip, lstrip.
    destruct (dropwhile_head isspace s) as [E | (c & t & E & Hc)]; rewrite E.
    - reflexivity.
    - destruct (rstrip_head c t Hc) as (t' & Ht). rewrite Ht.
      cbn [dropwhile]. rewrite Hc. reflexivity. }
  rewrite H. unfold strip. apply rstrip_idem.
Qed.

Lemma strip_space p : strip (space :: p) = strip p.
Proof. reflexivity. Qed.

Lemma strip_no_comma p : no_comma p -> no_comma (strip p).
Proof.
  unfold no_comma. intros H.
  destruct (contains comma (strip p)) eqn:E; [|reflexivity].
  unfold contains in *. apply existsb_exists in E. destruct E as (x & Hx & Hc).
  apply strip_incl in Hx.
  assert (existsb (Ascii.eqb comma) p = true) by (apply existsb_exists; eauto).
  congruence.
Qed.

(** Re-reading a joined list of trimmed, comma-free parts gives the
    list back. *)
Lemma reread_join x l :
  Forall no_comma (x :: l) -> Forall stripped (x :: l) ->
  map strip (split comma (join (py ", ") (x :: l))) = x :: l.
Proof.
  intros Hc Hs. rewrite split_join by exact Hc.
  inversion Hs as [|? ? Hx Hl]; subst. cbn [map]. rewrite Hx. f_equal.
  clear -Hl. induction Hl as [|y l Hy Hl IH]; [reflexivity|].
  cbn [map]. rewrite strip_space, Hy, IH. reflexivity.
Qed.

Lemma parts_no_comma s : Forall no_comma (map strip (split comma s)).
Proof.
  apply Forall_map. eapply Forall_impl; [|apply split_parts_no_sep].
  intros p. apply strip_no_comma.
Qed.

Lemma parts_stripped s : Forall stripped (map strip (split comma s)).
Proof.
  apply Forall_map. apply Forall_forall. intros p _. apply strip_stripped.
Qed.

(** ** [fromkeys] keeps first occurrences *)

Lemma str_eqb_eq a b : str_eqb a b = true <-> a = b.
Proof.
  unfold str_eqb. destruct (list_eq_dec ascii_dec a b); split; congruence.
Qed.

Lemma str_eqb_refl a : str_eqb a a = true.
Proof. apply str_eqb_eq. reflexivity. Qed.

Lemma mem_In x l : mem x l = true <-> In x l.
Proof.
  unfold mem. rewrite existsb_exists. split.
  - intros (y & Hy & E). apply str_eqb_eq in E. subst. exact Hy.
  - intros H. exists x. split; [exact H | apply str_eqb_refl].
Qed.

Lemma mem_app x a b : mem x (a ++ b) = mem x a || mem x b.
Proof. unfold mem. apply existsb_app. Qed.

Lemma filter_ne_absent x l :
  ~ In x l -> filter (fun y => negb (str_eqb y x)) l = l.
Proof.
  induction l as [|y l IH]; intros H; [reflexivity|].
  cbn [filter]. destruct (str_eqb y x) eqn:E.
  - apply str_eqb_eq in E. subst. exfalso. apply H. left. reflexivity.
  - cbn [negb]. rewrite IH; [reflexivity|]. intros Hin. apply H. right. exact Hin.
Qed.

Lemma filter_comm {A} (p q : A -> bool) l :
  filter p (filter q l) = filter q (filter p l).
Proof.
  induction l as [|x l IH]; [reflexivity|].
  cbn [filter]. destruct (p x) eqn:Ep, (q x) eqn:Eq; cbn [filter];
    rewrite ?Ep, ?Eq, IH; reflexivity.
Qed.

Lemma filter_dedup_first p l :
  filter p (dedup_first l) = dedup_first (filter p l).
Proof.
  induction l as [|x l IH]; [reflexivity|].
  cbn [dedup_first filter]. destruct (p x) eqn:Ep.
  - cbn [dedup_first]. rewrite filter_comm, IH. reflexivity.
  - rewrite filter_comm, IH. apply filter_ne_absent.
    intros Hin.
    assert (Hsub : forall m y, In y (dedup_first m) -> In y m).
    { clear. induction m as [|z m IHm]; intros y Hy; [exact Hy|].
      cbn [dedup_first] in Hy. destruct Hy as [->|Hy]; [left; reflexivity|].
      apply filter_In in Hy. right. apply IHm. apply Hy. }
    apply Hsub in Hin. apply filter_In in Hin. destruct Hin as [_ Hp]. congruence.
Qed.

Lemma fromkeys_acc l : forall acc,
  fold_left (fun keys x => if mem x keys then keys else keys ++ [x]) l acc
  = acc ++ dedup_first (filter (fun y => negb (mem y acc)) l).
Proof.
  induction l as [|x l IH]; intros acc.
  - cbn. rewrite app_nil_r. reflexivity.
  - cbn [fold_left filter]. destruct (mem x acc) eqn:E; cbn [negb].
    + apply IH.
    + rewrite IH. cbn [dedup_first]. rewrite <- app_assoc. cbn [app].
      do 2 f_equal. rewrite filter_dedup_first. f_equal.
      clear. induction l as [|y l IHl]; [reflexivity|].
      cbn [filter]. rewrite mem_app. cbn [mem existsb].
      rewrite orb_false_r, negb_orb.
      destruct (mem y acc); cbn [negb andb]; [exact IHl|].
      rewrite (IHl). destruct (str_eqb y x) eqn:E1; cbn [negb filter]; rewrite ?E1; reflexivity.
Qed.

(** The dict-based deduplication of the source is deduplication by first
    occurrence. *)
Lemma fromkeys_dedup_first l : fromkeys l = dedup_first l.
Proof.
  unfold fromkeys. rewrite fromkeys_acc. cbn [app].
  f_equal. induction l as [|x l IH]; [reflexivity|].
  cbn [filter]. change (mem x []) with false. cbn [negb]. f_equal. exact IH.
Qed.

Lemma dedup_first_In l x : In x (dedup_first l) <-> In x l.
Proof.
  induction l as [|y l IH]; [reflexivity|].
  cbn [dedup_first]. split.
  - intros [->|H]; [left; reflexivity|]. apply filter_In in H. right. apply IH, H.
  - intros [->|H]; [left; reflexivity|].
    destruct (list_eq_dec ascii_dec x y) as [->|Hne]; [left; reflexivity|].
    right. apply filter_In. split; [apply IH, H|].
    destruct (str_eqb x y) eqn:E; [apply str_eqb_eq in E; contradiction | reflexivity].
Qed.

Lemma dedup_first_NoDup l : NoDup (dedup_first l).
Proof.
  induction l as [|y l IH]; cbn [dedup_first]; constructor.
  - intros H. apply filter_In in H. destruct H as [_ H].
    rewrite str_eqb_refl in H. discriminate.
  - apply NoDup_filter. exact IH.
Qed.

Lemma dedup_first_fixed l : NoDup l -> dedup_first l = l.
Proof.
  induction 1 as [|x l Hx Hl IH]; [reflexivity|].
  cbn [dedup_first]. rewrite IH, filter_ne_absent by exact Hx. reflexivity.
Qed.

Lemma dedup_first_Forall (P : str -> Prop) l : Forall P l -> Forall P (dedup_first l).
Proof.
  rewrite !Forall_forall. intros H x Hx. apply H. apply dedup_first_In. exact Hx.
Qed.

(** ** Skills normalization *)

Lemma survivors_no_comma s : Forall no_comma (survivors s).
Proof.
  unfold survivors. apply Forall_forall. intros p Hp.
  apply filter_In in Hp. destruct Hp as [Hp _].
  pose proof (parts_no_comma s) as H. rewrite Forall_forall in H. apply H, Hp.
Qed.

Lemma survivors_stripped s : Forall stripped (survivors s).
Proof.
  unfold survivors. apply Forall_forall. intros p Hp.
  apply filter_In in Hp. destruct Hp as [Hp _].
  pose proof (parts_stripped s) as H. rewrite Forall_forall in H. apply H, Hp.
Qed.

Lemma survivors_not_keyword s : Forall (fun p => not_keyword p = true) (survivors s).
Proof.
  unfold survivors. apply Forall_forall. intros p Hp.
  apply filter_In in Hp. apply Hp.
Qed.

Lemma filter_all {A} (p : A -> bool) l : Forall (fun x => p x = true) l -> filter p l = l.
Proof.
  induction 1 as [|x l Hx Hl IH]; [reflexivity|].
  cbn [filter]. rewrite Hx, IH. reflexivity.
Qed.

(** The second pass on the text the first pass joined. *)
Lemma dedup_pass_on_join x l :
  Forall no_comma (x :: l) -> Forall stripped (x :: l) ->
  clean_and_deduplicate_skills (Str (join (py ", ") (x :: l)))
  = OK (join (py ", ") (dedup_first (x :: l))).
Proof.
  intros Hc Hs. unfold clean_and_deduplicate_skills. cbn [isna].
  rewrite reread_join by assumption.
  rewrite fromkeys_dedup_first. reflexivity.
Qed.

Lemma normalize_skills_eq s :
  normalize_skills (Str s)
  = OK (if is_nil (survivors s) then NA
        else join (py ", ") (dedup_first (survivors s))).
Proof.
  unfold normalize_skills, clean_skills. cbn [isna bind].
  fold (survivors s).
  pose proof (survivors_no_comma s) as Hc. pose proof (survivors_stripped s) as Hs.
  destruct (survivors s) as [|x l]; cbn [is_nil].
  - reflexivity.
  - apply dedup_pass_on_join; assumption.
Qed.

(** C1 (as amended). For every skills text, the two passes split on the
    comma, trim each part, drop the parts equal to a job-type keyword,
    keep the first occurrence of each surviving part, and join the result
    with [", "] in the original order, provided at least one part
    survives the keyword filter; when none survives the result is
    ["N/A"]. In particular ["Python, Full Time, Python, SQL"] gives
    ["Python, SQL"]. *)
Theorem normalize_skills_filters_and_dedups :
  (forall s,
     normalize_skills (Str s)
     = OK (match survivors s with
           | [] => NA
           | _ :: _ => join (py ", ") (dedup_first (survivors s))
           end))
  /\ normalize_skills (Str (py "Python, Full Time, Python, SQL")) = OK (py "Python, SQL").
Proof.
  split; [|reflexivity].
  intros s. rewrite normalize_skills_eq. destruct (survivors s); reflexivity.
Qed.

(** C1 as it was stated fails when every part is a job-type keyword:
    nothing is left to join, and the code answers ["N/A"], not the empty
    text. *)
Lemma normalize_skills_all_keywords :
  normalize_skills (Str (py "Full Time"))
  <> OK (join (py ", ") (dedup_first (survivors (py "Full Time")))).
Proof. vm_compute. discriminate. Qed.

(** C8. Skills normalization is idempotent: on every text it returns a
    text, and normalizing that text again gives it back; an absent cell
    gives ["N/A"], which is likewise left as it is. *)
Theorem normalize_skills_idempotent :
  (forall s, exists o,
      normalize_skills (Str s) = OK o /\ normalize_skills (Str o) = OK o)
  /\ normalize_skills NoneV = OK NA
  /\ normalize_skills NaN = OK NA
  /\ normalize_skills (Str NA) = OK NA.
Proof.
  split.
  - intros s. eexists. split; [apply normalize_skills_eq|].
    pose proof (survivors_no_comma s) as Hc.
    pose proof (survivors_stripped s) as Hs.
    pose proof (survivors_not_keyword s) as Hk.
    destruct (survivors s) as [|x l] eqn:E; cbn [is_nil].
    + reflexivity.
    + rewrite normalize_skills_eq.
      assert (Hu : survivors (join (py ", ") (dedup_first (x :: l))) = dedup_first (x :: l)).
      { unfold survivors. 
        assert (Hne : exists y m, dedup_first (x :: l) = y :: m) by (cbn [dedup_first]; eauto).
        destruct Hne as (y & m & Hym).
        pose proof (dedup_first_Forall _ _ Hc) as Hc'.
        pose proof (dedup_first_Forall _ _ Hs) as Hs'.
        pose proof (dedup_first_Forall _ _ Hk) as Hk'.
        rewrite Hym in *. rewrite reread_join by assumption.
        apply filter_all. exact Hk'. }
      rewrite Hu.
      rewrite (dedup_first_fixed (dedup_first (x :: l))) by apply dedup_first_NoDup.
      reflexivity.
  - repeat split.
Qed.

(** ** Location splitting *)

Lemma clean_data_Str s : clean_data (Str s) = OK (clean_text s).
Proof. destruct s; reflexivity. Qed.

(** What lines 26-27 and 41-45 compute when the normalized location
    text holds a comma: the display location is every comma-separated
    part but the last, joined with [", "] as the parts were cut and
    trimmed as a whole; the city is the trimmed part before the last and
    the country the trimmed last part. *)
Theorem split_location_with_comma :
  (forall s text,
     clean_data (Str s) = OK text ->
     contains comma text = true ->
     let parts := split comma text in
     split_location (Str s)
     = OK (strip (join (py ", ") (removelast parts)),
           strip (nth (length parts - 2) parts []),
           strip (last parts [])))
  /\ split_location (Str (py "Maadi, Cairo, Egypt"))
     = OK (py "Maadi,  Cairo", py "Cairo", py "Egypt").
Proof.
  split; [|reflexivity].
  intros s text Hclean Hcomma parts.
  unfold split_location. rewrite Hclean. cbn [bind].
  unfold city_of, country_of. cbn [isna]. rewrite Hcomma. cbn [bind fst snd].
  fold parts.
  assert (Hlen : (1 <? length parts) = true).
  { apply Nat.ltb_lt. unfold parts.
    clear -Hcomma. induction text as [|c text IH]; [discriminate|].
    cbn [split]. rewrite contains_cons in Hcomma.
    destruct (Ascii.eqb c comma) eqn:E.
    - pose proof (split_nonempty comma text). destruct (split comma text); [contradiction|].
      cbn [length]. lia.
    - rewrite Ascii.eqb_sym, E in Hcomma. cbn [orb] in Hcomma.
      specialize (IH Hcomma). destruct (split comma text); cbn [cons_head length] in *; lia. }
  rewrite Hlen. reflexivity.
Qed.

Lemma split_location_with_comma_witness :
  split_location (Str (py "Giza, Cairo, Egypt"))
  = OK (strip (join (py ", ") (removelast (split comma (py "Giza, Cairo, Egypt")))),
        strip (nth (length (split comma (py "Giza, Cairo, Egypt")) - 2)
                 (split comma (py "Giza, Cairo, Egypt")) []),
        strip (last (split comma (py "Giza, Cairo, Egypt")) [])).
Proof.
  apply (proj1 split_location_with_comma (py "Giza, Cairo, Egypt") (py "Giza, Cairo, Egypt"));
    reflexivity.
Defined.

(** C2. The display location of ["Maadi, Cairo, Egypt"]. Line 43 joins
    the parts as they were cut: the space that follows a comma of the
    input stays in front of its part, and the separator adds one more.
    The code returns ["Maadi,  Cairo"], with two spaces, not the
    ["Maadi, Cairo"] that joining the parts trimmed one by one gives (as
    lines 27 and 42 trim the city and the country); city and country
    are ["Cairo"] and ["Egypt"]. *)
Theorem split_location_maadi :
  split_location (Str (py "Maadi, Cairo, Egypt"))
  = OK (py "Maadi,  Cairo", py "Cairo", py "Egypt")
  /\ split_location (Str (py "Maadi, Cairo, Egypt"))
     <> OK (py "Maadi, Cairo", py "Cairo", py "Egypt")
  /\ join (py ", ") (map strip (removelast (split comma (py "Maadi, Cairo, Egypt"))))
     = py "Maadi, Cairo".
Proof.
  split; [reflexivity|]. split; [vm_compute; discriminate | reflexivity].
Qed.

(** * Further properties of the cleaning functions *)

(** ** [clean_data] on texts without a letter, and on its own results *)

Lemma char_at_In text j :
  (0 <= j < len text)%Z -> In (char_at text j) text.
Proof.
  intros Hj. unfold char_at. apply nth_In. unfold len in Hj. lia.
Qed.

Lemma clean_text_no_letter s :
  Forall (fun c => isalpha c = false) (strip s) -> clean_text s = NA.
Proof.
  intros H. unfold clean_text. set (text := strip s) in *.
  rewrite Forall_forall in H.
  destruct (scan_start_spec (length text) text 0%Z) as (S1 & _ & S3);
    [unfold len; lia | unfold len; lia |].
  destruct (scan_end_spec (length text) text (len text - 1)%Z) as (E1 & _ & E3);
    [unfold len; lia | unfold len; lia |].
  set (st := scan_start (length text) text 0) in *.
  set (en := scan_end (length text) text (len text - 1)) in *.
  assert (Hst : st = len text).
  { destruct (Z.eq_dec st (len text)) as [?|Hne]; [assumption|].
    assert (Hlt : (st < len text)%Z) by lia.
    specialize (S3 Hlt). rewrite H in S3 by (apply char_at_In; lia). discriminate. }
  assert (Hen : en = (-1)%Z).
  { destruct (Z.eq_dec en (-1)) as [?|Hne]; [assumption|].
    assert (Hge : (0 <= en)%Z) by lia.
    specialize (E3 Hge). rewrite H in E3 by (apply char_at_In; lia). discriminate. }
  replace (st <=? en)%Z with false; [reflexivity|].
  symmetry. apply Z.leb_gt. unfold len in *. lia.
Qed.

(** X1. A text without any alphabetic character (the empty text, digits,
    punctuation, white space) is cleaned to ["N/A"]. *)
Theorem clean_data_no_letter s :
  Forall (fun c => isalpha c = false) s -> clean_data (Str s) = OK NA.
Proof.
  intros H. rewrite clean_data_Str. f_equal. apply clean_text_no_letter.
  rewrite Forall_forall in *. intros c Hc. apply H. apply strip_incl. exact Hc.
Qed.

Lemma clean_data_no_letter_witness : clean_data (Str (py " 2024-05 (#3)! ")) = OK NA.
Proof.
  apply clean_data_no_letter. repeat constructor.
Defined.

Lemma alpha_not_space c : isalpha c = true -> isspace c = false.
Proof.
  intros H. destruct (isspace c) eqn:E; [|reflexivity].
  apply isspace_not_alpha in E. congruence.
Qed.

Lemma last_nth (l : str) : last l zero = nth (length l - 1) l zero.
Proof.
  induction l as [|a l IH]; [reflexivity|].
  destruct l as [|b l]; [reflexivity|].
  change (last (a :: b :: l) zero) with (last (b :: l) zero).
  rewrite IH. cbn [length]. rewrite !Nat.sub_succ, !Nat.sub_0_r. reflexivity.
Qed.

Lemma last_app_one (l : str) z : last (l ++ [z]) zero = z.
Proof. apply last_last. Qed.

(** A text that starts and ends with a letter is trimmed already. *)
Lemma letters_at_ends_stripped a mid :
  isalpha a = true -> isalpha (last (a :: mid) zero) = true -> strip (a :: mid) = a :: mid.
Proof.
  intros Ha Hz. unfold strip, lstrip. cbn [dropwhile].
  rewrite (alpha_not_space a Ha). unfold rstrip.
  destruct (exists_last (l := a :: mid)) as (l' & z & E); [discriminate|].
  rewrite E in *. rewrite last_app_one in Hz.
  rewrite rev_app_distr. cbn [rev app dropwhile].
  rewrite (alpha_not_space z Hz). cbn [rev]. rewrite rev_involutive. reflexivity.
Qed.

Lemma clean_text_fixed a mid :
  isalpha a = true -> isalpha (last (a :: mid) zero) = true ->
  clean_text (a :: mid) = a :: mid.
Proof.
  intros Ha Hz. unfold clean_text.
  rewrite (letters_at_ends_stripped a mid Ha Hz).
  set (text := a :: mid) in *.
  assert (Hst : scan_start (length text) text 0 = 0%Z).
  { unfold text. cbn [length scan_start]. unfold char_at. cbn [Z.to_nat nth].
    rewrite Ha, andb_false_r. reflexivity. }
  assert (Hen : scan_end (length text) text (len text - 1) = (len text - 1)%Z).
  { unfold text at 1. cbn [length scan_end].
    assert (Hc : char_at text (len text - 1) = last text zero).
    { rewrite last_nth. unfold char_at, len. f_equal. unfold text. cbn [length]. lia. }
    rewrite Hc, Hz, andb_false_r. reflexivity. }
  rewrite Hst, Hen.
  replace (0 <=? len text - 1)%Z with true
    by (symmetry; apply Z.leb_le; unfold len, text; cbn [length]; lia).
  unfold slice. cbn [Z.to_nat skipn].
  replace (Z.to_nat (len text - 1 + 1 - 0)) with (length text) by (unfold len; lia).
  apply firstn_all.
Qed.

(** What [clean_text] returns, whatever the text: ["N/A"], or a text
    that starts and ends with a letter. *)
Lemma clean_text_cases s :
  clean_text s = NA
  \/ exists a mid, clean_text s = a :: mid
       /\ isalpha a = true /\ isalpha (last (clean_text s) zero) = true.
Proof.
  destruct (has_letter (strip s)) eqn:E; unfold has_letter in E.
  - right. apply existsb_exists in E.
    destruct (clean_text_shape s E) as (pre & post & a & z & mid & _ & _ & _ & H4 & H5 & H6 & H7).
    exists a, mid. rewrite H6. repeat split; assumption.
  - left. apply clean_text_no_letter. apply Forall_forall. intros c Hc.
    destruct (isalpha c) eqn:Ec; [|reflexivity].
    assert (existsb isalpha (strip s) = true) by (apply existsb_exists; eauto).
    congruence.
Qed.

(** X2. [clean_data] is idempotent on texts: cleaning a cleaned text
    gives it back. *)
Theorem clean_data_idempotent s :
  exists r, clean_data (Str s) = OK r /\ clean_data (Str r) = OK r.
Proof.
  exists (clean_text s). split; [apply clean_data_Str|].
  rewrite clean_data_Str. f_equal.
  destruct (clean_text_cases s) as [->|(a & mid & E & Ha & Hz)]; [reflexivity|].
  rewrite E in *. apply clean_text_fixed; assumption.
Qed.

(** ** Trimmed texts *)

Lemma ends_not_space_stripped u : ends_not_space u -> stripped u.
Proof.
  destruct u as [|a mid]; [reflexivity|]. intros [Ha Hz].
  unfold stripped, strip, lstrip. cbn [dropwhile]. rewrite Ha. unfold rstrip.
  destruct (exists_last (l := a :: mid)) as (l' & z & E); [discriminate|].
  rewrite E in *. rewrite last_app_one in Hz.
  rewrite rev_app_distr. cbn [rev app dropwhile].
  rewrite Hz. cbn [rev]. rewrite rev_involutive. reflexivity.
Qed.

Lemma dropwhile_rev_last s :
  dropwhile isspace (rev s) <> [] ->
  isspace (last (rev (dropwhile isspace (rev s))) zero) = false.
Proof.
  intros Hne.
  destruct (dropwhile_head isspace (rev s)) as [E | (c & t & E & Hc)]; [congruence|].
  rewrite E. cbn [rev]. rewrite last_app_one. exact Hc.
Qed.

Lemma strip_ends s : ends_not_space (strip s).
Proof.
  unfold strip, lstrip.
  destruct (dropwhile_head isspace s) as [E | (c & t & E & Hc)]; rewrite E.
  - exact I.
  - destruct (rstrip_head c t Hc) as (t' & Ht).
    unfold ends_not_space. rewrite Ht. split; [exact Hc|].
    rewrite <- Ht. unfold rstrip. apply dropwhile_rev_last.
    intros Hnil. unfold rstrip in Ht. rewrite Hnil in Ht. discriminate.
Qed.

Lemma stripped_ends u : stripped u <-> ends_not_space u.
Proof.
  split; [|apply ends_not_space_stripped].
  intros H. rewrite <- H. apply strip_ends.
Qed.

Lemma last_map_char (f : ascii -> ascii) (u : str) :
  u <> [] -> last (map f u) zero = f (last u zero).
Proof.
  intros Hne. destruct (exists_last Hne) as (l' & z & ->).
  rewrite map_app. cbn [map]. rewrite !last_app_one. reflexivity.
Qed.

Lemma map_keeps_ends (f : ascii -> ascii) u :
  (forall c, isspace c = false -> isspace (f c) = false) ->
  ends_not_space u -> ends_not_space (map f u).
Proof.
  intros Hf. destruct u as [|a mid]; [intros _; exact I|].
  intros [Ha Hz]. cbn [map ends_not_space]. split; [apply Hf, Ha|].
  change (f a :: map f mid) with (map f (a :: mid)).
  rewrite last_map_char by discriminate. apply Hf, Hz.
Qed.

(** ** Column labels *)

Lemma label_char_facts c :
  lower_char (underscore_space (lower_char c)) = underscore_space (lower_char c)
  /\ underscore_space (underscore_space (lower_char c)) = underscore_space (lower_char c)
  /\ underscore_space (lower_char c) <> space
  /\ (isspace c = false -> isspace (lower_char c) = false)
  /\ (isspace c = false -> isspace (underscore_space c) = false).
Proof.
  destruct c as [[] [] [] [] [] [] [] []]; vm_compute; repeat split; congruence.
Qed.

Lemma normalize_label_eq c :
  normalize_label c = map (fun x => underscore_space (lower_char x)) (strip c).
Proof.
  unfold normalize_label, replace_char, lower. rewrite map_map. reflexivity.
Qed.

Lemma normalize_label_stripped c : stripped (normalize_label c).
Proof.
  apply stripped_ends. rewrite normalize_label_eq.
  apply map_keeps_ends; [|apply strip_ends].
  intros x Hx. apply label_char_facts. apply label_char_facts. exact Hx.
Qed.

(** X7. Normalizing a column label is idempotent, and a normalized label
    holds no space and no capital letter. *)
Theorem normalize_label_idempotent c :
  normalize_label (normalize_label c) = normalize_label c
  /\ Forall (fun x => x <> space /\ lower_char x = x) (normalize_label c).
Proof.
  split.
  - rewrite (normalize_label_eq (normalize_label c)).
    rewrite (normalize_label_stripped c).
    rewrite normalize_label_eq, map_map. apply map_ext. intros x.
    destruct (label_char_facts x) as (H1 & H2 & _). rewrite H1. exact H2.
  - rewrite normalize_label_eq. apply Forall_map. apply Forall_forall. intros x _.
    destruct (label_char_facts x) as (H1 & _ & H3 & _). split; assumption.
Qed.

Example normalize_label_ex : normalize_label (py "  Job Title ") = py "job_title".
Proof. reflexivity. Qed.

(** ** What the location splitter hands out *)

Lemma In_nonempty {A} (x : A) l : In x l -> l <> [].
Proof. intros H E. rewrite E in H. destruct H. Qed.

Lemma split_last_char t z :
  Ascii.eqb z comma = false -> In z (last (split comma (t ++ [z])) []).
Proof.
  intros Hz. induction t as [|c t IH]; cbn [app split].
  - rewrite Hz. cbn. left. reflexivity.
  - pose proof (split_nonempty comma (t ++ [z])) as Hne.
    destruct (split comma (t ++ [z])) as [|p ps] eqn:E; [contradiction|].
    destruct (Ascii.eqb c comma).
    + exact IH.
    + cbn [cons_head]. destruct ps as [|q ps]; [|exact IH].
      cbn [last] in *. right. exact IH.
Qed.

Lemma split_first_char a mid :
  Ascii.eqb a comma = false ->
  exists p ps, split comma (a :: mid) = (a :: p) :: ps.
Proof.
  intros Ha. cbn [split]. rewrite Ha.
  pose proof (split_nonempty comma mid) as Hne.
  destruct (split comma mid) as [|p ps]; [contradiction|].
  exists p, ps. reflexivity.
Qed.

Lemma split_two_parts text :
  contains comma text = true -> 1 < length (split comma text).
Proof.
  induction text as [|c text IH]; [discriminate|].
  intros H. cbn [split]. rewrite contains_cons in H.
  destruct (Ascii.eqb c comma) eqn:E.
  - pose proof (split_nonempty comma text).
    destruct (split comma text); [contradiction|]. cbn [length]. lia.
  - rewrite Ascii.eqb_sym, E in H. cbn [orb] in H. specialize (IH H).
    destruct (split comma text); cbn [cons_head length] in *; lia.
Qed.

Lemma alpha_not_comma c : isalpha c = true -> Ascii.eqb c comma = false.
Proof.
  intros H. destruct (Ascii.eqb c comma) eqn:E; [|reflexivity].
  apply Ascii.eqb_eq in E. subst. discriminate.
Qed.

Lemma nth_parts_no_comma text n :
  no_comma (nth n (split comma text) []).
Proof.
  pose proof (split_parts_no_sep text) as H. rewrite Forall_forall in H.
  destruct (Nat.lt_ge_cases n (length (split comma text))) as [Hlt|Hge].
  - apply H. apply nth_In. exact Hlt.
  - rewrite nth_overflow by exact Hge. reflexivity.
Qed.

Lemma last_parts_no_comma text : no_comma (last (split comma text) []).
Proof.
  pose proof (split_parts_no_sep text) as H. rewrite Forall_forall in H.
  pose proof (split_nonempty comma text) as Hne.
  destruct (exists_last Hne) as (l' & z & E). rewrite E, last_last.
  apply H. rewrite E. apply in_or_app. right. left. reflexivity.
Qed.

Lemma NA_no_comma : no_comma NA /\ stripped NA.
Proof. split; reflexivity. Qed.

(** X6. For every location text the splitter returns a triple whose
    display location and country are never empty, and whose three parts
    are trimmed; city and country hold no comma. *)
Theorem split_location_fields s :
  exists d city country,
    split_location (Str s) = OK (d, city, country)
    /\ d <> [] /\ country <> []
    /\ stripped d /\ stripped city /\ stripped country
    /\ no_comma city /\ no_comma country.
Proof.
  unfold split_location. rewrite clean_data_Str. cbn [bind].
  unfold city_of, country_of. cbn [isna].
  destruct (contains comma (clean_text s)) eqn:Hcomma; cbn [bind fst snd].
  - rewrite (proj2 (Nat.ltb_lt _ _) (split_two_parts _ Hcomma)).
    do 3 eexists. split; [reflexivity|].
    destruct (clean_text_cases s) as [E|(a & mid & E & Ha & Hz)];
      [rewrite E in Hcomma; discriminate|].
    assert (Hlast : exists t z, clean_text s = t ++ [z] /\ isalpha z = true).
    { destruct (exists_last (l := clean_text s)) as (t & z & Et); [rewrite E; discriminate|].
      exists t, z. split; [exact Et|]. rewrite Et, last_app_one in Hz. exact Hz. }
    destruct Hlast as (t & z & Et & Hzz).
    repeat split.
    + (* the display location keeps the first letter *)
      destruct (split_first_char a mid (alpha_not_comma a Ha)) as (p & ps & Ep).
      pose proof (split_two_parts _ Hcomma) as Hlen.
      rewrite E in *. rewrite Ep in *.
      destruct ps as [|q ps]; [cbn [length] in Hlen; lia|].
      assert (Hin : In a (join (py ", ") (removelast ((a :: p) :: q :: ps)))).
      { change (removelast ((a :: p) :: q :: ps)) with ((a :: p) :: removelast (q :: ps)).
        destruct (removelast (q :: ps)); cbn [join app]; left; reflexivity. }
      apply strip_keeps in Hin; [|apply alpha_not_space, Ha].
      eapply In_nonempty. exact Hin.
    + (* the country keeps the last letter *)
      pose proof (split_last_char t z (alpha_not_comma z Hzz)) as Hin.
      rewrite <- Et in Hin.
      apply strip_keeps in Hin; [|apply alpha_not_space, Hzz].
      eapply In_nonempty. exact Hin.
    + apply strip_stripped.
    + apply strip_stripped.
    + apply strip_stripped.
    + apply strip_no_comma, nth_parts_no_comma.
    + apply strip_no_comma, last_parts_no_comma.
  - do 3 eexists. split; [reflexivity|].
    destruct (clean_text_cases s) as [E|(a & mid & E & Ha & Hz)].
    + rewrite E. repeat split; discriminate.
    + rewrite E in *. repeat split; try discriminate.
      apply letters_at_ends_stripped; assumption.
Qed.

(** The city, in contrast, can be empty. *)
Example split_location_empty_city :
  split_location (Str (py "Giza,,Egypt")) = OK (py "Giza,", [], py "Egypt").
Proof. reflexivity. Qed.

(** ** Parsing the normalized skills text *)

Lemma re_split_from_app_sep a b :
  no_comma a ->
  re_split_from false (a ++ comma :: b) = a :: re_split_from true b.
Proof.
  induction a as [|c a IH]; intros Ha.
  - cbn [app re_split_from andb]. rewrite Ascii.eqb_refl. reflexivity.
  - apply no_comma_cons in Ha. destruct Ha as [Hc Ha].
    cbn [app re_split_from andb]. rewrite Hc, IH by exact Ha. reflexivity.
Qed.

Lemma re_split_from_no_sep a : no_comma a -> re_split_from false a = [a].
Proof.
  induction a as [|c a IH]; intros Ha.
  - reflexivity.
  - apply no_comma_cons in Ha. destruct Ha as [Hc Ha].
    cbn [re_split_from andb]. rewrite Hc, IH by exact Ha. reflexivity.
Qed.

Lemma re_split_from_skip u :
  match u with [] => True | c :: _ => isspace c = false end ->
  re_split_from true u = re_split_from false u.
Proof.
  destruct u as [|c u]; [reflexivity|]. intros Hc.
  cbn [re_split_from andb]. rewrite Hc. reflexivity.
Qed.

Lemma join_head_not_space y l :
  ends_not_space y ->
  match join (py ", ") (y :: l) with [] => True | c :: _ => isspace c = false end.
Proof.
  intros Hy. destruct y as [|c y].
  - destruct l; [exact I | reflexivity].
  - destruct Hy as [Hc _]. destruct l; exact Hc.
Qed.

(** Cutting a text joined with [", "] at [",\s*"] gives the parts back
    when they are trimmed and comma-free. *)
Lemma re_split_join x l :
  Forall no_comma (x :: l) -> Forall stripped (x :: l) ->
  re_split (join (py ", ") (x :: l)) = x :: l.
Proof.
  unfold re_split. revert x. induction l as [|y l IH]; intros x Hc Hs.
  - cbn [join]. apply re_split_from_no_sep. inversion Hc; assumption.
  - inversion Hc as [|? ? Hx Hcl]; subst. inversion Hs as [|? ? Hsx Hsl]; subst.
    change (join (py ", ") (x :: y :: l))
      with (x ++ comma :: (space :: join (py ", ") (y :: l))).
    rewrite re_split_from_app_sep by exact Hx. f_equal.
    change (re_split_from true (space :: join (py ", ") (y :: l)))
      with (re_split_from true (join (py ", ") (y :: l))).
    rewrite re_split_from_skip.
    + apply IH; assumption.
    + apply join_head_not_space. apply stripped_ends. inversion Hsl; assumption.
Qed.

Lemma dedup_first_nonempty x l : exists y m, dedup_first (x :: l) = y :: m.
Proof. cbn [dedup_first]. eauto. Qed.

(** X4. The list parsed from a normalized skills text is the list of
    surviving parts without repetition (or the single entry ["N/A"] when
    nothing survives): it holds no job-type keyword and no entry twice,
    and joining it with [", "] gives the normalized text back. *)
Theorem parsed_skills s :
  exists o,
    normalize_skills (Str s) = OK o
    /\ re_split o = match survivors s with
                    | [] => [NA]
                    | _ :: _ => dedup_first (survivors s)
                    end
    /\ NoDup (re_split o)
    /\ Forall (fun skill => mem skill job_type_keywords = false) (re_split o)
    /\ join (py ", ") (re_split o) = o.
Proof.
  eexists. split; [apply normalize_skills_eq|].
  pose proof (survivors_no_comma s) as Hc.
  pose proof (survivors_stripped s) as Hs.
  pose proof (survivors_not_keyword s) as Hk.
  destruct (survivors s) as [|x l] eqn:E; cbn [is_nil].
  - split; [reflexivity|]. split; [repeat constructor; intros []|].
    split; [repeat constructor | reflexivity].
  - destruct (dedup_first_nonempty x l) as (y & m & Hym).
    pose proof (dedup_first_Forall _ _ Hc) as Hc'.
    pose proof (dedup_first_Forall _ _ Hs) as Hs'.
    pose proof (dedup_first_Forall _ _ Hk) as Hk'.
    pose proof (dedup_first_NoDup (x :: l)) as Hn.
    rewrite Hym in *. rewrite re_split_join by assumption.
    split; [reflexivity|]. split; [exact Hn|]. split; [|reflexivity].
    eapply Forall_impl; [|exact Hk'].
    intros p Hp. unfold not_keyword in Hp. apply negb_true_iff in Hp. exact Hp.
Qed.

(** ** The two skills passes, each on its own *)

Lemma parts_nonempty s : exists x l, map strip (split comma s) = x :: l.
Proof.
  pose proof (split_nonempty comma s) as H.
  destruct (split comma s) as [|p ps]; [contradiction|].
  cbn [map]. eauto.
Qed.

(** X14. On a text, [clean_and_deduplicate_skills] never takes its
    ["N/A"] branch: it returns the trimmed parts of the text, each kept
    at its first occurrence, joined with [", "]. Read back part by part
    the result is that list, which holds no part twice, and a second
    application returns the same text. *)
Theorem deduplicate_pass s :
  let parts := map strip (split comma s) in
  let o := join (py ", ") (dedup_first parts) in
  clean_and_deduplicate_skills (Str s) = OK o
  /\ map strip (split comma o) = dedup_first parts
  /\ NoDup (dedup_first parts)
  /\ clean_and_deduplicate_skills (Str o) = OK o.
Proof.
  intros parts o.
  pose proof (parts_no_comma s) as Hc. pose proof (parts_stripped s) as Hs.
  fold parts in Hc, Hs.
  destruct (parts_nonempty s) as (x & l & E). fold parts in E.
  assert (H1 : clean_and_deduplicate_skills (Str s) = OK o).
  { unfold clean_and_deduplicate_skills. cbn [isna]. fold parts.
    rewrite fromkeys_dedup_first. subst o. rewrite E. reflexivity. }
  assert (H2 : map strip (split comma o) = dedup_first parts).
  { subst o. rewrite E in *.
    destruct (dedup_first_nonempty x l) as (y & m & Hym).
    pose proof (dedup_first_Forall _ _ Hc) as Hc'.
    pose proof (dedup_first_Forall _ _ Hs) as Hs'.
    rewrite Hym in *. apply reread_join; assumption. }
  split; [exact H1|]. split; [exact H2|]. split; [apply dedup_first_NoDup|].
  unfold clean_and_deduplicate_skills. cbn [isna]. rewrite H2.
  rewrite fromkeys_dedup_first.
  rewrite (dedup_first_fixed (dedup_first parts)) by apply dedup_first_NoDup.
  subst o. rewrite E. destruct (dedup_first_nonempty x l) as (y & m & Hym).
  rewrite Hym. reflexivity.
Qed.

Example deduplicate_pass_empty : clean_and_deduplicate_skills (Str []) = OK [].
Proof. reflexivity. Qed.

(** X15. On a text, [clean_skills] returns ["N/A"] when every part is a
    job-type keyword; otherwise it returns a text whose trimmed parts
    are the surviving parts of the input, in their order. Either way no
    part of the result is a job-type keyword and a second application
    returns the same text. *)
Theorem keyword_pass s :
  exists o,
    clean_skills (Str s) = OK o
    /\ map strip (split comma o) = match survivors s with
                                   | [] => [NA]
                                   | _ :: _ => survivors s
                                   end
    /\ Forall (fun part => mem part job_type_keywords = false)
              (map strip (split comma o))
    /\ clean_skills (Str o) = OK o.
Proof.
  pose proof (survivors_no_comma s) as Hc.
  pose proof (survivors_stripped s) as Hs.
  pose proof (survivors_not_keyword s) as Hk.
  unfold clean_skills at 1. cbn [isna]. fold (survivors s).
  destruct (survivors s) as [|x l] eqn:E; cbn [is_nil]; eexists; (split; [reflexivity|]).
  - split; [reflexivity|]. split; [repeat constructor | reflexivity].
  - assert (Hre : map strip (split comma (join (py ", ") (x :: l))) = x :: l)
      by (apply reread_join; assumption).
    split; [exact Hre|]. split.
    + rewrite Hre. eapply Forall_impl; [|exact Hk].
      intros p Hp. unfold not_keyword in Hp. apply negb_true_iff in Hp. exact Hp.
    + unfold clean_skills. cbn [isna]. rewrite Hre.
      change (filter (fun part => negb (mem part job_type_keywords)) (x :: l))
        with (filter not_keyword (x :: l)).
      rewrite (filter_all not_keyword (x :: l) Hk). reflexivity.
Qed.


(** ** Columns *)

Lemma lookup_assign_same {A} c (v : list A) cols : lookup c (assign c v cols) = Some v.
Proof.
  induction cols as [|[c' col] cols IH]; cbn [assign lookup].
  - rewrite str_eqb_refl. reflexivity.
  - destruct (str_eqb c c') eqn:E; cbn [lookup]; rewrite E; [reflexivity | exact IH].
Qed.

Lemma lookup_assign_other {A} c c' (v : list A) cols :
  c <> c' -> lookup c' (assign c v cols) = lookup c' cols.
Proof.
  intros Hne. induction cols as [|[c0 col] cols IH]; cbn [assign lookup].
  - destruct (str_eqb c' c) eqn:E; [|reflexivity].
    apply str_eqb_eq in E. congruence.
  - destruct (str_eqb c c0) eqn:E; cbn [lookup].
    + apply str_eqb_eq in E. subst c0.
      destruct (str_eqb c' c) eqn:E'; [|reflexivity].
      apply str_eqb_eq in E'. congruence.
    + rewrite IH. reflexivity.
Qed.

Lemma has_col_lookup {A} (df : DataFrame A) c :
  has_col df c = true <-> lookup c (columns df) <> None.
Proof.
  unfold has_col, labels. induction (columns df) as [|[c' col] cols IH]; cbn [map mem existsb lookup fst].
  - split; [discriminate | congruence].
  - destruct (str_eqb c c'); cbn [orb]; [split; [discriminate | reflexivity]|exact IH].
Qed.

Lemma has_col_false {A} (df : DataFrame A) c :
  has_col df c = false <-> lookup c (columns df) = None.
Proof.
  pose proof (has_col_lookup df c) as H.
  destruct (has_col df c), (lookup c (columns df)); split; intros; try reflexivity; try discriminate.
  - exfalso. destruct H as [H _]. apply H; reflexivity.
  - destruct H as [_ H]. assert (G : Some l <> None) by discriminate. apply H in G. discriminate.
Qed.

Lemma lookup_map_values {A B} (f : list A -> list B) c cols :
  lookup c (map (fun col => (fst col, f (snd col))) cols) = option_map f (lookup c cols).
Proof.
  induction cols as [|[c' col] cols IH]; cbn [map lookup fst snd]; [reflexivity|].
  destruct (str_eqb c c'); [reflexivity | exact IH].
Qed.

Lemma lookup_drop {A} c cs (cols : list (str * list A)) :
  lookup c (filter (fun col => negb (mem (fst col) cs)) cols)
  = if mem c cs then None else lookup c cols.
Proof.
  induction cols as [|[c' col] cols IH]; cbn [filter lookup fst].
  - destruct (mem c cs); reflexivity.
  - destruct (mem c' cs) eqn:Ec'; cbn [negb lookup].
    + rewrite IH. destruct (str_eqb c c') eqn:E; [|reflexivity].
      apply str_eqb_eq in E. subst. rewrite Ec'. reflexivity.
    + rewrite IH. destruct (str_eqb c c') eqn:E; [|reflexivity].
      apply str_eqb_eq in E. subst. rewrite Ec'. reflexivity.
Qed.

Lemma getitem_OK {A} (df : DataFrame A) c col :
  getitem df c = OK col <-> lookup c (columns df) = Some col.
Proof.
  unfold getitem. destruct (lookup c (columns df)); split; congruence.
Qed.

(** ** Loops over a column *)

Lemma mapM_Forall2 {A B} (f : A -> result B) l : forall l',
  mapM f l = OK l' <-> Forall2 (fun a b => f a = OK b) l l'.
Proof.
  induction l as [|a l IH]; intros l'; cbn [mapM].
  - split.
    + intros H. injection H as <-. constructor.
    + intros H. inversion H. reflexivity.
  - split.
    + destruct (f a) as [b|e] eqn:Ea; cbn [bind]; [|discriminate].
      destruct (mapM f l) as [bs|e] eqn:El; cbn [bind]; [|discriminate].
      intros H. injection H as <-. constructor; [exact Ea | apply IH; reflexivity].
    + intros H. inversion H as [|? b ? bs Ha Hl]; subst.
      rewrite Ha. cbn [bind]. apply IH in Hl. rewrite Hl. reflexivity.
Qed.

Lemma mapM_total {A B} (f : A -> result B) l :
  Forall (fun a => is_ok (f a) = true) l -> exists l', mapM f l = OK l'.
Proof.
  induction 1 as [|a l Ha Hl (l' & IH)]; cbn [mapM].
  - eexists; reflexivity.
  - destruct (f a) as [b|e]; [|discriminate]. cbn [bind]. rewrite IH. cbn [bind].
    eexists; reflexivity.
Qed.

Lemma Forall2_nth_error {A B} (R : A -> B -> Prop) l l' :
  Forall2 R l l' -> forall i a, nth_error l i = Some a ->
  exists b, nth_error l' i = Some b /\ R a b.
Proof.
  induction 1 as [|x y l l' Hxy Hl IH]; intros i a Hi.
  - destruct i; discriminate.
  - destruct i as [|i]; cbn [nth_error] in *.
    + injection Hi as <-. eauto.
    + apply IH. exact Hi.
Qed.

(** ** The stages of [load_data] *)

Ltac inv_bind H :=
  match type of H with
  | bind ?r _ = OK _ =>
      let x := fresh "x" in
      let E := fresh "E" in
      destruct r as [x|] eqn:E; cbn [bind] in H; [|discriminate H]
  end.

Lemma label_neq (a b : str) : str_eqb a b = false -> a <> b.
Proof. intros H E. apply str_eqb_eq in E. congruence. Qed.

Lemma split_location_rows loc : forall cleaned cities pairs,
  mapM clean_data loc = OK cleaned ->
  mapM city_of (map Str cleaned) = OK cities ->
  mapM country_of (map Str cleaned) = OK pairs ->
  exists rows,
    mapM split_location loc = OK rows
    /\ cities = map (fun r => snd (fst r)) rows
    /\ map fst pairs = map (fun r => fst (fst r)) rows
    /\ map snd pairs = map snd rows.
Proof.
  induction loc as [|v loc IH]; intros cleaned cities pairs H1 H2 H3.
  - cbn in H1. injection H1 as <-. cbn in H2, H3. injection H2 as <-. injection H3 as <-.
    exists []. repeat split.
  - cbn [mapM] in H1. inv_bind H1. inv_bind H1. injection H1 as <-.
    cbn [map mapM] in H2, H3.
    inv_bind H2. inv_bind H2. injection H2 as <-.
    inv_bind H3. inv_bind H3. injection H3 as <-.
    destruct (IH _ _ _ eq_refl E2 E4) as (rows & R1 & R2 & R3 & R4).
    exists ((fst x3, x1, snd x3) :: rows).
    cbn [mapM map fst snd]. unfold split_location at 1.
    rewrite E. cbn [bind]. rewrite E1. cbn [bind]. rewrite E3. cbn [bind].
    rewrite R1. cbn [bind]. repeat split; congruence.
Qed.

Lemma mapM_length {A B} (f : A -> result B) l l' : mapM f l = OK l' -> length l' = length l.
Proof.
  intros H. apply mapM_Forall2 in H. symmetry. eapply Forall2_length. exact H.
Qed.

Lemma clean_location_spec df df1 :
  clean_location df = OK df1 ->
  index df1 = index df
  /\ (forall c, ~ In c [py "location"; py "city"; py "country"] ->
        lookup c (columns df1) = lookup c (columns df))
  /\ exists cities countries,
       lookup (py "city") (columns df1) = Some (map Str cities)
       /\ lookup (py "country") (columns df1) = Some (map Str countries)
       /\ match lookup (py "location") (columns df) with
          | None => cities = repeat NA (length (index df))
                    /\ countries = repeat NA (length (index df))
          | Some loc => exists rows,
              mapM split_location loc = OK rows
              /\ cities = map (fun r => snd (fst r)) rows
              /\ countries = map snd rows
          end.
Proof.
  unfold clean_location. intros H.
  destruct (has_col df (py "location")) eqn:Hloc.
  - inv_bind H. apply getitem_OK in E. rename x into loc.
    inv_bind H. rename x into cleaned.
    unfold getitem in H at 1. cbn [setitem columns] in H.
    rewrite lookup_assign_same in H. cbn [bind] in H.
    inv_bind H. rename x into cities.
    unfold getitem in H at 1. cbn [setitem columns] in H.
    rewrite lookup_assign_other in H by (apply label_neq; reflexivity).
    rewrite lookup_assign_same in H. cbn [bind] in H.
    inv_bind H. rename x into lc. injection H as <-.
    unfold extract_city in E1. unfold extract_country in E2.
    inv_bind E2. rename x into pairs. injection E2 as <-.
    cbn [setitem columns index fst snd].
    split; [reflexivity|]. split.
    + intros c Hc.
      rewrite !lookup_assign_other
        by (intros Heq; apply Hc; rewrite <- Heq; cbn [In]; auto).
      reflexivity.
    + exists cities, (map snd pairs).
      split.
      { rewrite lookup_assign_other by (apply label_neq; reflexivity).
        rewrite lookup_assign_other by (apply label_neq; reflexivity).
        apply lookup_assign_same. }
      split; [apply lookup_assign_same|].
      rewrite E.
      destruct (split_location_rows loc _ _ _ E0 E1 E3) as (rows & R1 & R2 & R3 & R4).
      exists rows. repeat split; assumption.
  - injection H as <-. apply has_col_false in Hloc. rewrite Hloc.
    cbn [setitem columns index].
    split; [reflexivity|]. split.
    + intros c Hc.
      rewrite !lookup_assign_other
        by (intros Heq; apply Hc; rewrite <- Heq; cbn [In]; auto).
      reflexivity.
    + exists (repeat NA (length (index df))), (repeat NA (length (index df))).
      rewrite !map_repeat.
      split.
      { rewrite lookup_assign_other by (apply label_neq; reflexivity).
        apply lookup_assign_same. }
      split; [apply lookup_assign_same|]. split; reflexivity.
Qed.

Lemma normalize_skills_column sk : forall cleaned unique,
  mapM clean_skills sk = OK cleaned ->
  mapM clean_and_deduplicate_skills (map Str cleaned) = OK unique ->
  mapM normalize_skills sk = OK unique.
Proof.
  induction sk as [|v sk IH]; intros cleaned unique H1 H2.
  - cbn in H1. injection H1 as <-. cbn in H2. exact H2.
  - cbn [mapM] in H1. inv_bind H1. inv_bind H1. injection H1 as <-.
    cbn [map mapM] in H2. inv_bind H2. inv_bind H2. injection H2 as <-.
    cbn [mapM]. unfold normalize_skills at 1. rewrite E. cbn [bind]. rewrite E1. cbn [bind].
    rewrite (IH _ _ eq_refl E2). reflexivity.
Qed.

Lemma clean_skills_column_spec df df2 :
  clean_skills_column df = OK df2 ->
  index df2 = index df
  /\ (forall c, ~ In c [py "skills"; py "skills_list"] ->
        lookup c (columns df2) = option_map (map Scalar) (lookup c (columns df)))
  /\ exists lists,
       lookup (py "skills_list") (columns df2) = Some (map ListV lists)
       /\ match lookup (py "skills") (columns df) with
          | None => lists = repeat [] (length (index df))
          | Some sk => exists texts,
              mapM normalize_skills sk = OK texts
              /\ lists = map re_split texts
              /\ lookup (py "skills") (columns df2) = Some (map Scalar (map Str texts))
          end.
Proof.
  unfold clean_skills_column. intros H.
  destruct (has_col df (py "skills")) eqn:Hsk.
  - inv_bind H. apply getitem_OK in E. rename x into sk.
    inv_bind H. rename x into cleaned.
    unfold getitem in H at 1. cbn [setitem columns] in H.
    rewrite lookup_assign_same in H. cbn [bind] in H.
    inv_bind H. rename x into unique.
    unfold getitem in H at 1. cbn [setitem columns] in H.
    rewrite lookup_assign_same in H. cbn [bind] in H.
    injection H as <-.
    cbn [setitem to_values columns index].
    split; [reflexivity|]. split.
    + intros c Hc.
      rewrite lookup_assign_other
        by (intros Heq; apply Hc; rewrite <- Heq; cbn [In]; auto).
      rewrite lookup_map_values.
      rewrite !lookup_assign_other
        by (intros Heq; apply Hc; rewrite <- Heq; cbn [In]; auto).
      reflexivity.
    + exists (map re_split unique). split.
      { rewrite lookup_assign_same. f_equal. rewrite !map_map. reflexivity. }
      rewrite E. exists unique.
      split; [eapply normalize_skills_column; eassumption|].
      split; [reflexivity|].
      rewrite lookup_assign_other by (apply label_neq; reflexivity).
      rewrite lookup_map_values, lookup_assign_same. reflexivity.
  - injection H as <-. apply has_col_false in Hsk. rewrite Hsk.
    cbn [setitem to_values columns index].
    split; [reflexivity|]. split.
    + intros c Hc.
      rewrite lookup_assign_other
        by (intros Heq; apply Hc; rewrite <- Heq; cbn [In]; auto).
      apply lookup_map_values.
    + exists (repeat [] (length (index df))). rewrite map_repeat.
      split; [apply lookup_assign_same | reflexivity].
Qed.

Lemma drop_unnecessary_spec df :
  index (drop_unnecessary df) = index df
  /\ forall c, lookup c (columns (drop_unnecessary df))
               = if mem c [py "salary"; py "location"] then None
                 else lookup c (columns df).
Proof.
  unfold drop_unnecessary, drop. cbn [index columns]. split; [reflexivity|].
  intros c. rewrite lookup_drop.
  destruct (mem c [py "salary"; py "location"]) eqn:Hc.
  - destruct (mem c (filter (has_col df) [py "salary"; py "location"])) eqn:Hd;
      [reflexivity|].
    destruct (lookup c (columns df)) eqn:Hl; [|reflexivity].
    exfalso. assert (In c (filter (has_col df) [py "salary"; py "location"])).
    { apply filter_In. split; [apply mem_In; exact Hc|].
      apply has_col_lookup. congruence. }
    apply mem_In in H. congruence.
  - destruct (mem c (filter (has_col df) [py "salary"; py "location"])) eqn:Hd;
      [|reflexivity].
    apply mem_In in Hd. apply filter_In in Hd. destruct Hd as [Hd _].
    apply mem_In in Hd. congruence.
Qed.

Lemma drop_duplicates_spec df a b out :
  drop_duplicates df a b = OK out ->
  (empty df = true /\ out = df)
  \/ (empty df = false
      /\ exists ca cb,
           lookup a (columns df) = Some ca
           /\ lookup b (columns df) = Some cb
           /\ let keep := map negb (duplicated (combine (map key_of ca) (map key_of cb))) in
              index out = select keep (index df)
              /\ forall c, lookup c (columns out)
                           = option_map (select keep) (lookup c (columns df))).
Proof.
  unfold drop_duplicates. intros H.
  destruct (empty df) eqn:Hempty.
  - left. injection H as <-. split; reflexivity.
  - right. split; [reflexivity|].
    inv_bind H. inv_bind H. injection H as <-.
    apply getitem_OK in E, E0. exists x, x0.
    split; [exact E|]. split; [exact E0|].
    cbn [index columns]. split; [reflexivity|].
    intros c. apply lookup_map_values.
Qed.

(** ** Row selection *)

Lemma select_map {A B} (f : A -> B) keep : forall l,
  select keep (map f l) = map f (select keep l).
Proof.
  induction keep as [|b keep IH]; intros [|x l]; cbn [select map]; try reflexivity.
  destruct b; cbn [map]; rewrite IH; reflexivity.
Qed.

Lemma select_seq_nth {A} keep : forall (l : list A) s p i,
  length l = length keep ->
  nth_error (select keep (seq s (length keep))) p = Some i ->
  s <= i /\ i < s + length keep /\ nth_error keep (i - s) = Some true
  /\ nth_error (select keep l) p = nth_error l (i - s).
Proof.
  induction keep as [|b keep IH]; intros l s p i Hl Hp.
  - cbn in Hp. destruct p; discriminate.
  - destruct l as [|x l]; [discriminate|]. cbn [length] in Hl. injection Hl as Hl.
    cbn [length seq select] in *. destruct b.
    + destruct p as [|p]; cbn [nth_error] in *.
      * injection Hp as <-. rewrite Nat.sub_diag. repeat split; try lia.
      * destruct (IH l (S s) p i Hl Hp) as (H1 & H2 & H3 & H4).
        replace (i - s) with (S (i - S s)) by lia. cbn [nth_error].
        repeat split; try lia; assumption.
    + destruct (IH l (S s) p i Hl Hp) as (H1 & H2 & H3 & H4).
      replace (i - s) with (S (i - S s)) by lia. cbn [nth_error].
      repeat split; try lia; assumption.
Qed.

Lemma select_seq_In keep : forall s i,
  In i (select keep (seq s (length keep)))
  <-> s <= i /\ nth_error keep (i - s) = Some true.
Proof.
  induction keep as [|b keep IH]; intros s i; cbn [length seq select].
  - split; [intros [] | intros [_ H]; destruct (i - s); discriminate].
  - assert (Hstep : forall j, S s <= j -> nth_error (b :: keep) (j - s) = nth_error keep (j - S s)).
    { intros j Hj. replace (j - s) with (S (j - S s)) by lia. reflexivity. }
    destruct b; cbn [In]; rewrite IH; split.
    + intros [<-|[H1 H2]].
      * rewrite Nat.sub_diag. split; [lia | reflexivity].
      * rewrite Hstep by lia. split; [lia | exact H2].
    + intros [H1 H2]. destruct (Nat.eq_dec s i) as [->|Hne]; [left; reflexivity|].
      right. rewrite Hstep in H2 by lia. split; [lia | exact H2].
    + intros [H1 H2]. rewrite Hstep by lia. split; [lia | exact H2].
    + intros [H1 H2]. destruct (Nat.eq_dec s i) as [->|Hne].
      * rewrite Nat.sub_diag in H2. discriminate.
      * rewrite Hstep in H2 by lia. split; [lia | exact H2].
Qed.

Lemma select_seq_sorted keep : forall s,
  StronglySorted lt (select keep (seq s (length keep))).
Proof.
  induction keep as [|b keep IH]; intros s; cbn [length seq select].
  - constructor.
  - destruct b; [|apply IH]. constructor; [apply IH|].
    apply Forall_forall. intros i Hi. apply select_seq_In in Hi. lia.
Qed.

(** ** Duplicate detection *)

Lemma rowkey_eqb_eq a b : rowkey_eqb a b = true <-> a = b.
Proof.
  unfold rowkey_eqb. destruct a as [a1 a2], b as [b1 b2]. cbn [fst snd].
  destruct (key_eq_dec a1 b1), (key_eq_dec a2 b2); split; congruence.
Qed.

Lemma seen_In k seen : existsb (rowkey_eqb k) seen = true <-> In k seen.
Proof.
  rewrite existsb_exists. split.
  - intros (y & Hy & E). apply rowkey_eqb_eq in E. subst. exact Hy.
  - intros H. exists k. split; [exact H | apply rowkey_eqb_eq; reflexivity].
Qed.

Lemma duplicated_from_length keys : forall seen,
  length (duplicated_from seen keys) = length keys.
Proof.
  induction keys as [|k keys IH]; intros seen; cbn [duplicated_from]; [reflexivity|].
  destruct (existsb (rowkey_eqb k) seen); cbn [length]; rewrite IH; reflexivity.
Qed.

(** A row is flagged exactly when its key is among the keys seen before
    the scan or in an earlier row. *)
Lemma duplicated_from_flag keys : forall seen i k,
  nth_error keys i = Some k ->
  exists b, nth_error (duplicated_from seen keys) i = Some b
    /\ (b = true <-> In k seen \/ exists j, j < i /\ nth_error keys j = Some k).
Proof.
  induction keys as [|k0 keys IH]; intros seen i k Hi.
  - destruct i; discriminate.
  - cbn [duplicated_from]. destruct i as [|i]; cbn [nth_error] in Hi.
    + injection Hi as ->.
      destruct (existsb (rowkey_eqb k) seen) eqn:E; cbn [nth_error]; eexists; (split; [reflexivity|]).
      * apply seen_In in E. split; [intros _; left; exact E | reflexivity].
      * split; [discriminate|]. intros [H|(j & Hj & _)]; [|lia].
        apply seen_In in H. congruence.
    + destruct (existsb (rowkey_eqb k0) seen) eqn:E; cbn [nth_error].
      * destruct (IH seen i k Hi) as (b & Hb & Hiff). exists b. split; [exact Hb|].
        rewrite Hiff. apply seen_In in E. split.
        -- intros [H|(j & Hj & Hk)]; [left; exact H|].
           right. exists (S j). split; [lia | exact Hk].
        -- intros [H|(j & Hj & Hk)]; [left; exact H|].
           destruct j as [|j]; cbn [nth_error] in Hk.
           ++ injection Hk as ->. left. exact E.
           ++ right. exists j. split; [lia | exact Hk].
      * destruct (IH (k0 :: seen) i k Hi) as (b & Hb & Hiff). exists b. split; [exact Hb|].
        rewrite Hiff. cbn [In]. split.
        -- intros [[->|H]|(j & Hj & Hk)].
           ++ right. exists 0. split; [lia | reflexivity].
           ++ left. exact H.
           ++ right. exists (S j). split; [lia | exact Hk].
        -- intros [H|(j & Hj & Hk)]; [left; right; exact H|].
           destruct j as [|j]; cbn [nth_error] in Hk.
           ++ injection Hk as ->. left. left. reflexivity.
           ++ right. exists j. split; [lia | exact Hk].
Qed.

Lemma kept_rows_NoDup keys : forall seen,
  NoDup (select (map negb (duplicated_from seen keys)) keys)
  /\ forall k, In k (select (map negb (duplicated_from seen keys)) keys) -> ~ In k seen.
Proof.
  induction keys as [|k0 keys IH]; intros seen; cbn [duplicated_from].
  - cbn. split; [constructor | intros k []].
  - destruct (existsb (rowkey_eqb k0) seen) eqn:E; cbn [map negb select].
    + apply IH.
    + destruct (IH (k0 :: seen)) as [H1 H2]. split.
      * constructor; [|exact H1]. intros Hin. apply H2 in Hin. apply Hin. left. reflexivity.
      * intros k [<-|Hin].
        -- intros Hs. apply seen_In in Hs. congruence.
        -- intros Hs. apply H2 in Hin. apply Hin. right. exact Hs.
Qed.

(** ** Lookups in the sheet *)

Lemma lookup_In {A} c (cols : list (str * list A)) col :
  lookup c cols = Some col -> exists c', In (c', col) cols.
Proof.
  induction cols as [|[c0 col0] cols IH]; cbn [lookup]; [discriminate|].
  destruct (str_eqb c c0).
  - intros H. injection H as <-. exists c0. left. reflexivity.
  - intros H. destruct (IH H) as (c' & Hc'). exists c'. right. exact Hc'.
Qed.

Lemma renamed_length sh c col :
  sheet_ok sh = true -> lookup c (renamed sh) = Some col -> length col = nrows sh.
Proof.
  unfold sheet_ok, renamed, rename_columns, read_excel. cbn [columns].
  intros Hok Hl. apply andb_prop in Hok. destruct Hok as [Hrect _].
  rewrite forallb_forall in Hrect.
  apply lookup_In in Hl. destruct Hl as (c' & Hin).
  apply in_map_iff in Hin. destruct Hin as ([c0 col0] & Heq & Hin).
  cbn [fst snd] in Heq. injection Heq as _ <-.
  apply Hrect in Hin. cbn [snd] in Hin. apply Nat.eqb_eq in Hin. exact Hin.
Qed.

Lemma not_reserved c : ~ In c reserved ->
  ~ In c [py "location"; py "city"; py "country"]
  /\ ~ In c [py "skills"; py "skills_list"]
  /\ mem c [py "salary"; py "location"] = false.
Proof.
  unfold reserved. intros H. repeat split.
  - cbn [In] in *. tauto.
  - cbn [In] in *. tauto.
  - destruct (mem c [py "salary"; py "location"]) eqn:E; [|reflexivity].
    apply mem_In in E. exfalso. apply H. cbn [In] in *. tauto.
Qed.

(** ** Well-formed tables *)

Lemma select_true {A} (l : list A) n : length l = n -> select (repeat true n) l = l.
Proof.
  revert n. induction l as [|x l IH]; intros n H; subst n; [reflexivity|].
  cbn [length repeat select]. rewrite IH; reflexivity.
Qed.

Lemma select_same_length {A B} keep : forall (l : list A) (m : list B),
  length l = length m -> length (select keep l) = length (select keep m).
Proof.
  induction keep as [|b keep IH]; intros [|x l] [|y m] H; try discriminate; try reflexivity.
  cbn [length] in H. injection H as H. cbn [select].
  destruct b; cbn [length]; rewrite (IH l m H); reflexivity.
Qed.

Lemma regular_setitem {A} (df : DataFrame A) c vals :
  regular df -> length vals = length (index df) -> regular (setitem df c vals).
Proof.
  unfold regular, setitem. cbn [index columns]. intros H Hv.
  induction (columns df) as [|[c' col] cols IH]; cbn [assign].
  - repeat constructor. exact Hv.
  - inversion H as [|? ? H1 H2]; subst.
    destruct (str_eqb c c'); constructor; try assumption. apply IH, H2.
Qed.

Lemma regular_map_values {A B} (f : list A -> list B) (idx idx' : list nat) cols :
  (forall col, length col = length idx -> length (f col) = length idx') ->
  Forall (fun col : str * list A => length (snd col) = length idx) cols ->
  Forall (fun col : str * list B => length (snd col) = length idx')
         (map (fun col => (fst col, f (snd col))) cols).
Proof.
  intros Hf H. apply Forall_map. eapply Forall_impl; [|exact H].
  intros col Hc. cbn [snd]. apply Hf, Hc.
Qed.

Lemma regular_to_values df : regular df -> regular (to_values df).
Proof.
  unfold regular, to_values. cbn [index columns].
  apply regular_map_values. intros col Hc. rewrite length_map. exact Hc.
Qed.

Lemma regular_drop {A} (df : DataFrame A) cs : regular df -> regular (drop df cs).
Proof.
  unfold regular, drop. cbn [index columns]. intros H.
  apply Forall_forall. intros col Hc. apply filter_In in Hc.
  rewrite Forall_forall in H. apply H, Hc.
Qed.

Lemma regular_boolean_index df mask : regular df -> regular (boolean_index df mask).
Proof.
  unfold regular, boolean_index. cbn [index columns].
  apply regular_map_values. intros col Hc. apply select_same_length, Hc.
Qed.

Lemma regular_drop_duplicates df a b out :
  regular df -> drop_duplicates df a b = OK out -> regular out.
Proof.
  unfold drop_duplicates. intros H E.
  destruct (empty df); [injection E as <-; exact H|].
  inv_bind E. inv_bind E. injection E as <-.
  unfold regular. cbn [index columns]. revert H.
  apply regular_map_values. intros col Hc. apply select_same_length, Hc.
Qed.

Lemma regular_lookup {A} (df : DataFrame A) c col :
  regular df -> lookup c (columns df) = Some col -> length col = length (index df).
Proof.
  unfold regular. intros H Hl. apply lookup_In in Hl. destruct Hl as (c' & Hin).
  rewrite Forall_forall in H. apply (H _ Hin).
Qed.

(** What [drop_duplicates] returns is the table restricted by a mask:
    the mask of the rows that are no duplicates, or the mask that keeps
    every row when the table is empty. *)
Lemma drop_duplicates_mask df a b out :
  regular df -> drop_duplicates df a b = OK out ->
  exists keep,
    length keep = length (index df)
    /\ index out = select keep (index df)
    /\ (forall c, lookup c (columns out)
                  = option_map (select keep) (lookup c (columns df)))
    /\ (empty df = true
        \/ exists ca cb,
             lookup a (columns df) = Some ca
             /\ lookup b (columns df) = Some cb
             /\ keep = map negb (duplicated (combine (map key_of ca) (map key_of cb)))).
Proof.
  intros Hr H. apply drop_duplicates_spec in H.
  destruct H as [[He ->]|(He & ca & cb & Ha & Hb & Hidx & Hcols)].
  - exists (repeat true (length (index df))).
    split; [apply repeat_length|].
    split; [symmetry; apply select_true; reflexivity|].
    split; [|left; exact He].
    intros c. destruct (lookup c (columns df)) as [col|] eqn:E; [|reflexivity].
    cbn [option_map]. f_equal. symmetry. apply select_true.
    apply (regular_lookup df c col Hr E).
  - exists (map negb (duplicated (combine (map key_of ca) (map key_of cb)))).
    split.
    { unfold duplicated. rewrite length_map, duplicated_from_length.
      etransitivity; [apply length_combine|]. rewrite !length_map.
      rewrite (regular_lookup df a ca Hr Ha), (regular_lookup df b cb Hr Hb). lia. }
    split; [exact Hidx|]. split; [exact Hcols|].
    right. exists ca, cb. repeat split; assumption.
Qed.

Lemma regular_sheet sh : sheet_ok sh = true -> regular (rename_columns (read_excel sh)).
Proof.
  unfold sheet_ok, regular, rename_columns, read_excel. cbn [index columns].
  intros H. apply andb_prop in H. destruct H as [H _]. rewrite forallb_forall in H.
  apply Forall_map. apply Forall_forall. intros col Hc. cbn [snd].
  apply H in Hc. apply Nat.eqb_eq in Hc. rewrite length_seq. exact Hc.
Qed.

Lemma clean_location_regular df df1 :
  regular df -> clean_location df = OK df1 -> regular df1.
Proof.
  intros Hr H. unfold clean_location in H.
  destruct (has_col df (py "location")).
  - inv_bind H. apply getitem_OK in E. rename x into loc.
    pose proof (regular_lookup df _ _ Hr E) as Lloc.
    inv_bind H. rename x into cleaned. apply mapM_length in E0.
    unfold getitem in H at 1. cbn [setitem columns] in H.
    rewrite lookup_assign_same in H. cbn [bind] in H.
    inv_bind H. rename x into cities. apply mapM_length in E1.
    unfold getitem in H at 1. cbn [setitem columns] in H.
    rewrite lookup_assign_other in H by (apply label_neq; reflexivity).
    rewrite lookup_assign_same in H. cbn [bind] in H.
    inv_bind H. rename x into lc. injection H as <-.
    unfold extract_country in E2. inv_bind E2. injection E2 as <-.
    apply mapM_length in E3. rewrite length_map in E1, E3.
    cbn [fst snd].
    repeat (apply regular_setitem; cbn [setitem index]); try assumption;
      rewrite !length_map; lia.
  - injection H as <-.
    repeat (apply regular_setitem; cbn [setitem index]); try assumption;
      apply repeat_length.
Qed.

Lemma clean_skills_column_regular df df2 :
  regular df -> clean_skills_column df = OK df2 -> regular df2.
Proof.
  intros Hr H. unfold clean_skills_column in H.
  destruct (has_col df (py "skills")).
  - inv_bind H. apply getitem_OK in E. rename x into sk.
    pose proof (regular_lookup df _ _ Hr E) as Lsk.
    inv_bind H. rename x into cleaned. apply mapM_length in E0.
    unfold getitem in H at 1. cbn [setitem columns] in H.
    rewrite lookup_assign_same in H. cbn [bind] in H.
    inv_bind H. rename x into unique. apply mapM_length in E1.
    unfold getitem in H at 1. cbn [setitem columns] in H.
    rewrite lookup_assign_same in H. cbn [bind] in H.
    injection H as <-. rewrite length_map in E1.
    apply regular_setitem.
    + apply regular_to_values.
      repeat (apply regular_setitem; cbn [setitem index]); try assumption;
        rewrite !length_map; lia.
    + cbn [to_values setitem index]. rewrite !length_map. lia.
  - injection H as <-. apply regular_setitem.
    + apply regular_to_values, Hr.
    + apply repeat_length.
Qed.

(** X12. The table [load_data] returns is well formed: every column has
    exactly one value per row label. *)
Theorem load_data_regular sh out :
  sheet_ok sh = true -> load_data sh = OK out -> regular out.
Proof.
  intros Hok H. unfold load_data in H.
  inv_bind H. inv_bind H.
  eapply regular_drop_duplicates; [|exact H].
  apply regular_drop.
  eapply clean_skills_column_regular; [|exact E0].
  eapply clean_location_regular; [|exact E].
  apply regular_sheet, Hok.
Qed.

Lemma load_data_regular_witness : regular demo_table.
Proof.
  apply (load_data_regular demo_sheet demo_table); vm_compute; reflexivity.
Defined.

(** ** [load_data] as a whole *)

(** What a table returned by [load_data] is made of: the rows of the
    sheet that are not duplicates (every row when the sheet has none),
    the untouched columns of the sheet, and the derived columns. *)
Lemma load_data_inv sh out :
  sheet_ok sh = true -> load_data sh = OK out ->
  exists keep,
    length keep = nrows sh
    /\ index out = select keep (seq 0 (nrows sh))
    /\ (forall c, ~ In c reserved ->
          lookup c (columns out)
          = option_map (fun col => select keep (map Scalar col)) (lookup c (renamed sh)))
    /\ lookup (py "salary") (columns out) = None
    /\ (nrows sh = 0
        \/ exists titles companies,
             lookup (py "job_title") (renamed sh) = Some titles
             /\ lookup (py "company") (renamed sh) = Some companies
             /\ keep = map negb (duplicated (sheet_keys titles companies)))
    /\ exists cities countries lists,
         length cities = nrows sh
         /\ length countries = nrows sh
         /\ length lists = nrows sh
         /\ lookup (py "city") (columns out)
            = Some (select keep (map Scalar (map Str cities)))
         /\ lookup (py "country") (columns out)
            = Some (select keep (map Scalar (map Str countries)))
         /\ lookup (py "skills_list") (columns out)
            = Some (select keep (map ListV lists))
         /\ match lookup (py "location") (renamed sh) with
            | None => cities = repeat NA (nrows sh)
                      /\ countries = repeat NA (nrows sh)
            | Some loc => exists rows,
                mapM split_location loc = OK rows
                /\ cities = map (fun r => snd (fst r)) rows
                /\ countries = map snd rows
            end
         /\ match lookup (py "skills") (renamed sh) with
            | None => lists = repeat [] (nrows sh)
            | Some sk => exists texts,
                mapM normalize_skills sk = OK texts
                /\ lists = map re_split texts
                /\ lookup (py "skills") (columns out)
                   = Some (select keep (map Scalar (map Str texts)))
            end.
Proof.
  intros Hok H. unfold load_data in H.
  inv_bind H. rename x into df1, E into E1.
  inv_bind H. rename x into df2, E into E2.
  assert (Hr3 : regular (drop_unnecessary df2)).
  { apply regular_drop.
    eapply clean_skills_column_regular; [|exact E2].
    eapply clean_location_regular; [|exact E1].
    apply regular_sheet, Hok. }
  apply clean_location_spec in E1.
  destruct E1 as (I1 & P1 & cities & countries & C1 & C2 & L1).
  apply clean_skills_column_spec in E2.
  destruct E2 as (I2 & P2 & lists & S1 & S2).
  destruct (drop_unnecessary_spec df2) as (I3 & P3).
  destruct (drop_duplicates_mask _ _ _ _ Hr3 H) as (keep & Hklen & I4 & P4 & Hkeys).
  change (columns (rename_columns (read_excel sh))) with (renamed sh) in *.
  change (index (rename_columns (read_excel sh))) with (seq 0 (nrows sh)) in *.
  assert (Hidx3 : index (drop_unnecessary df2) = seq 0 (nrows sh))
    by (rewrite I3, I2, I1; reflexivity).
  assert (Pass : forall c, ~ In c reserved ->
            lookup c (columns (drop_unnecessary df2))
            = option_map (map Scalar) (lookup c (renamed sh))).
  { intros c Hc. destruct (not_reserved c Hc) as (N1 & N2 & N3).
    rewrite P3, N3, P2, P1 by assumption. reflexivity. }
  assert (Hli3 : lookup (py "skills_list") (columns (drop_unnecessary df2))
                 = Some (map ListV lists)).
  { rewrite P3.
    replace (mem (py "skills_list") [py "salary"; py "location"]) with false by reflexivity.
    exact S1. }
  exists keep.
  assert (Hlen : length keep = nrows sh) by (rewrite Hklen, Hidx3; apply length_seq).
  assert (Hn1 : length (index df1) = nrows sh) by (rewrite I1; apply length_seq).
  split; [exact Hlen|].
  split; [rewrite I4, Hidx3; reflexivity|].
  split.
  { intros c Hcr. rewrite P4, Pass by exact Hcr.
    destruct (lookup c (renamed sh)); reflexivity. }
  split; [rewrite P4, P3; reflexivity|].
  split.
  { destruct Hkeys as [He|(ca & cb & Ha & Hb & Hk)].
    - left. unfold empty in He. apply orb_prop in He. destruct He as [He|He].
      + rewrite Hidx3 in He. destruct (nrows sh); [reflexivity | discriminate].
      + destruct (columns (drop_unnecessary df2)); [discriminate Hli3 | discriminate He].
    - right.
      rewrite Pass in Ha by (vm_compute; intuition discriminate).
      rewrite Pass in Hb by (vm_compute; intuition discriminate).
      destruct (lookup (py "job_title") (renamed sh)) as [titles|]; [|discriminate].
      destruct (lookup (py "company") (renamed sh)) as [companies|]; [|discriminate].
      cbn [option_map] in Ha, Hb. injection Ha as <-. injection Hb as <-.
      exists titles, companies. split; [reflexivity|]. split; [reflexivity|].
      rewrite Hk. unfold sheet_keys, cell_key. rewrite !map_map. reflexivity. }
  exists cities, countries, lists.
  assert (Hcity : length cities = nrows sh /\ length countries = nrows sh).
  { destruct (lookup (py "location") (renamed sh)) as [loc|] eqn:Hloc.
    - destruct L1 as (rows & R1 & -> & ->). rewrite !length_map.
      apply mapM_length in R1. rewrite R1.
      split; apply (renamed_length sh _ _ Hok Hloc).
    - destruct L1 as [-> ->]. rewrite !repeat_length, length_seq. split; reflexivity. }
  assert (Hsk : lookup (py "skills") (columns df1) = lookup (py "skills") (renamed sh)).
  { apply P1. vm_compute. intuition discriminate. }
  rewrite Hsk in S2.
  assert (Hlists : length lists = nrows sh).
  { destruct (lookup (py "skills") (renamed sh)) as [sk|] eqn:Hs.
    - destruct S2 as (texts & T1 & -> & _). rewrite length_map.
      apply mapM_length in T1. rewrite T1. apply (renamed_length sh _ _ Hok Hs).
    - rewrite S2, repeat_length. exact Hn1. }
  split; [apply Hcity|]. split; [apply Hcity|]. split; [exact Hlists|].
  split.
  { rewrite P4, P3.
    replace (mem (py "city") [py "salary"; py "location"]) with false by reflexivity.
    rewrite P2 by (vm_compute; intuition discriminate). rewrite C1. reflexivity. }
  split.
  { rewrite P4, P3.
    replace (mem (py "country") [py "salary"; py "location"]) with false by reflexivity.
    rewrite P2 by (vm_compute; intuition discriminate). rewrite C2. reflexivity. }
  split; [rewrite P4, Hli3; reflexivity|].
  split.
  { destruct (lookup (py "location") (renamed sh)); [exact L1|].
    rewrite length_seq in L1. exact L1. }
  destruct (lookup (py "skills") (renamed sh)).
  - destruct S2 as (texts & T1 & T2 & Hcol). exists texts.
    split; [exact T1|]. split; [exact T2|].
    rewrite P4, P3.
    replace (mem (py "skills") [py "salary"; py "location"]) with false by reflexivity.
    rewrite Hcol. reflexivity.
  - rewrite S2, Hn1. reflexivity.
Qed.

(** The row at position [p] of the result is the row of the sheet whose
    label stands at position [p] of the index. *)
Lemma select_at {A} keep (col : list A) n p i :
  length keep = n -> length col = n ->
  nth_error (select keep (seq 0 n)) p = Some i ->
  i < n /\ nth_error keep i = Some true
  /\ nth_error (select keep col) p = nth_error col i.
Proof.
  intros Hk Hc Hp. subst n.
  destruct (select_seq_nth keep col 0 p i Hc Hp) as (_ & H2 & H3 & H4).
  rewrite Nat.sub_0_r in H3, H4. repeat split; try assumption; lia.
Qed.

Lemma nth_error_Some_lt {A} (l : list A) i : i < length l -> exists x, nth_error l i = Some x.
Proof.
  intros H. destruct (nth_error l i) eqn:E; [eauto|].
  apply nth_error_None in E. lia.
Qed.

Lemma sheet_key_nth sh titles companies i :
  lookup (py "job_title") (renamed sh) = Some titles ->
  lookup (py "company") (renamed sh) = Some companies ->
  sheet_key sh i = nth_error (sheet_keys titles companies) i.
Proof.
  intros Ht Hc. unfold sheet_key, cell_at, sheet_keys. rewrite Ht, Hc.
  generalize dependent i. clear. revert companies.
  induction titles as [|t titles IH]; intros companies i.
  - destruct i; reflexivity.
  - destruct companies as [|c companies].
    + destruct i; cbn [nth_error map combine]; [reflexivity|].
      destruct (nth_error titles i); reflexivity.
    + destruct i as [|i]; cbn [nth_error map combine]; [reflexivity | apply IH].
Qed.

Lemma sorted_NoDup l : StronglySorted lt l -> NoDup l.
Proof.
  induction 1 as [|x l Hl IH Hx]; constructor; [|exact IH].
  intros Hin. rewrite Forall_forall in Hx. apply Hx in Hin. lia.
Qed.

(** C4. The table [load_data] returns holds no two rows with the same
    (job_title, company) pair; the rows it keeps are, in the order of the
    sheet, exactly those whose pair occurs in no earlier row, each with
    the pair it had in the sheet. *)
Theorem load_data_unique_jobs sh out :
  sheet_ok sh = true -> load_data sh = OK out ->
  (forall p q, p < length (index out) -> q < length (index out) ->
     row_key out p = row_key out q -> p = q)
  /\ (forall i, In i (index out)
        <-> i < nrows sh /\ forall j, j < i -> sheet_key sh j <> sheet_key sh i)
  /\ StronglySorted lt (index out)
  /\ (forall p i, nth_error (index out) p = Some i ->
        row_key out p = sheet_key sh i /\ sheet_key sh i <> None).
Proof.
  intros Hok Hload.
  destruct (load_data_inv sh out Hok Hload)
    as (keep0 & Hlen & Hidx & Pass & _ & Hkeys & _).
  destruct Hkeys as [Hzero | (titles & companies & Ht & Hc & Hk)].
  { (* a sheet without rows: nothing to compare *)
    assert (Hnil : index out = []).
    { rewrite Hidx, Hzero. destruct keep0; reflexivity. }
    rewrite Hnil. cbn [length].
    split; [intros p q Hp; lia|].
    split; [intros i; split; [intros [] | intros [Hi _]; lia]|].
    split; [constructor|].
    intros p i Hp. destruct p; discriminate. }
  subst keep0.
  set (keys := sheet_keys titles companies) in *.
  set (keep := map negb (duplicated keys)) in *.
  pose proof (renamed_length sh _ _ Hok Ht) as Lt.
  pose proof (renamed_length sh _ _ Hok Hc) as Lc.
  assert (Hkeylen : length keys = nrows sh).
  { unfold keys, sheet_keys. etransitivity; [apply length_combine|].
    rewrite !length_map. lia. }
  assert (Hrow : forall p i, nth_error (index out) p = Some i ->
            row_key out p = sheet_key sh i /\ sheet_key sh i <> None).
  { intros p i Hp. rewrite Hidx in Hp.
    unfold row_key, cell_at.
    rewrite !Pass by (vm_compute; intuition discriminate).
    rewrite Ht, Hc. cbn [option_map].
    destruct (select_at keep (map Scalar titles) (nrows sh) p i Hlen) as (Hi & _ & E1);
      [rewrite length_map; exact Lt | exact Hp |].
    destruct (select_at keep (map Scalar companies) (nrows sh) p i Hlen) as (_ & _ & E2);
      [rewrite length_map; exact Lc | exact Hp |].
    rewrite E1, E2, !nth_error_map.
    unfold sheet_key, cell_at. rewrite Ht, Hc.
    destruct (nth_error_Some_lt titles i) as (t & Et); [lia|].
    destruct (nth_error_Some_lt companies i) as (c & Ec); [lia|].
    rewrite Et, Ec. cbn [option_map]. split; [reflexivity | discriminate]. }
  assert (Hin : forall i, In i (index out)
             <-> i < nrows sh /\ forall j, j < i -> sheet_key sh j <> sheet_key sh i).
  { intros i. rewrite Hidx. rewrite <- Hlen at 1. rewrite select_seq_In, Nat.sub_0_r.
    unfold keep. rewrite nth_error_map.
    split.
    - intros [_ Hk].
      destruct (nth_error (duplicated keys) i) as [b|] eqn:Eb; [|discriminate].
      cbn [option_map] in Hk. injection Hk as Hb.
      assert (Hi : i < nrows sh).
      { rewrite <- Hkeylen. unfold duplicated in Eb.
        rewrite <- (duplicated_from_length keys []).
        apply nth_error_Some. congruence. }
      split; [exact Hi|]. intros j Hj Heq.
      destruct (nth_error_Some_lt keys i) as (k & Ek); [lia|].
      destruct (duplicated_from_flag keys [] i k Ek) as (b' & Eb' & Hiff).
      unfold duplicated in Eb. rewrite Eb in Eb'. injection Eb' as <-.
      rewrite !(sheet_key_nth sh titles companies) in Heq by assumption.
      fold keys in Heq. rewrite Ek in Heq.
      destruct b; [discriminate|].
      assert (false = true); [|discriminate].
      apply Hiff. right. exists j. split; assumption.
    - intros [Hi Hfirst]. split; [lia|].
      destruct (nth_error_Some_lt keys i) as (k & Ek); [lia|].
      destruct (duplicated_from_flag keys [] i k Ek) as (b & Eb & Hiff).
      unfold duplicated. rewrite Eb. cbn [option_map]. f_equal.
      destruct b; [|reflexivity]. exfalso.
      destruct Hiff as [Hiff _]. destruct (Hiff eq_refl) as [[]|(j & Hj & Ej)].
      apply (Hfirst j Hj).
      rewrite !(sheet_key_nth sh titles companies) by assumption.
      fold keys. congruence. }
  assert (Hsorted : StronglySorted lt (index out)).
  { rewrite Hidx, <- Hlen. apply select_seq_sorted. }
  split; [|split; [exact Hin | split; [exact Hsorted | exact Hrow]]].
  intros p q Hp Hq Heq.
  destruct (nth_error_Some_lt (index out) p Hp) as (i & Ei).
  destruct (nth_error_Some_lt (index out) q Hq) as (i' & Ei').
  destruct (Hrow p i Ei) as [Rp Np]. destruct (Hrow q i' Ei') as [Rq Nq].
  assert (Hii : i = i').
  { pose proof (proj1 (Hin i) (nth_error_In _ _ Ei)) as [_ Fi].
    pose proof (proj1 (Hin i') (nth_error_In _ _ Ei')) as [_ Fi'].
    destruct (Nat.lt_trichotomy i i') as [Hlt|[Heq'|Hgt]]; [|exact Heq'|].
    - exfalso. apply (Fi' i Hlt). congruence.
    - exfalso. apply (Fi i' Hgt). congruence. }
  subst i'. apply sorted_NoDup in Hsorted.
  rewrite NoDup_nth_error in Hsorted. apply Hsorted; [exact Hp | congruence].
Qed.

Lemma load_data_unique_jobs_witness :
  (forall p q, p < length (index demo_table) -> q < length (index demo_table) ->
     row_key demo_table p = row_key demo_table q -> p = q)
  /\ (forall i, In i (index demo_table)
        <-> i < nrows demo_sheet
            /\ forall j, j < i -> sheet_key demo_sheet j <> sheet_key demo_sheet i)
  /\ StronglySorted lt (index demo_table)
  /\ (forall p i, nth_error (index demo_table) p = Some i ->
        row_key demo_table p = sheet_key demo_sheet i
        /\ sheet_key demo_sheet i <> None).
Proof.
  apply (load_data_unique_jobs demo_sheet demo_table); vm_compute; reflexivity.
Defined.

Lemma split_location_no_comma v text d city country :
  split_location v = OK (d, city, country) ->
  clean_data v = OK text -> contains comma text = false ->
  d = text /\ city = NA /\ country = NA.
Proof.
  unfold split_location. intros H Hc Hn. rewrite Hc in H. cbn [bind] in H.
  unfold city_of, country_of in H. cbn [isna] in H. rewrite Hn in H.
  cbn [bind fst snd] in H. injection H as <- <- <-. repeat split.
Qed.

(** A text without a comma, or without a letter, is cleaned to a text
    without a comma. *)
Lemma clean_text_no_comma s :
  contains comma s = false \/ has_letter s = false ->
  contains comma (clean_text s) = false.
Proof.
  intros H.
  destruct (has_letter (strip s)) eqn:E; unfold has_letter in *.
  - destruct H as [H|H].
    + apply existsb_exists in E.
      destruct (clean_text_shape s E) as (pre & post & a & z & mid & Hs & _).
      destruct (contains comma (clean_text s)) eqn:Hc; [|reflexivity].
      unfold contains in *. apply existsb_exists in Hc. destruct Hc as (x & Hx & Ex).
      assert (Hin : In x s).
      { apply strip_incl. rewrite Hs. apply in_or_app. right.
        apply in_or_app. left. exact Hx. }
      assert (existsb (Ascii.eqb comma) s = true) by (apply existsb_exists; eauto).
      congruence.
    + apply existsb_exists in E. destruct E as (x & Hx & Ex).
      apply strip_incl in Hx.
      assert (existsb isalpha s = true) by (apply existsb_exists; eauto).
      congruence.
  - rewrite clean_text_no_letter; [reflexivity|].
    apply Forall_forall. intros c Hc.
    destruct (isalpha c) eqn:Ec; [|reflexivity].
    assert (existsb isalpha (strip s) = true) by (apply existsb_exists; eauto).
    congruence.
Qed.

(** What holds of the city and the country in every row of a table
    [load_data] returns: they are texts, never a missing value, and both
    are exactly ["N/A"] when the sheet has no location column, when the
    location cell of the row is [None], and when it is a text that
    holds no comma or no alphabetic character (the empty text
    included). *)
Theorem load_data_city_country sh out :
  sheet_ok sh = true -> load_data sh = OK out ->
  forall p i, nth_error (index out) p = Some i ->
    exists city country,
      cell_at (columns out) (py "city") p = Some (Scalar (Str city))
      /\ cell_at (columns out) (py "country") p = Some (Scalar (Str country))
      /\ (lookup (py "location") (renamed sh) = None -> city = NA /\ country = NA)
      /\ (cell_at (renamed sh) (py "location") i = Some NoneV ->
            city = NA /\ country = NA)
      /\ (forall s, cell_at (renamed sh) (py "location") i = Some (Str s) ->
            contains comma s = false \/ has_letter s = false ->
            city = NA /\ country = NA).
Proof.
  intros Hok Hload p i Hp.
  destruct (load_data_inv sh out Hok Hload)
    as (keep & Hlen & Hidx & _ & _ & _ &
        cities & countries & lists & Lci & Lco & _ & Hci & Hco & _ & Hloc & _).
  rewrite Hidx in Hp.
  destruct (select_at keep (map Scalar (map Str cities)) (nrows sh) p i Hlen) as (Hi & _ & E1);
    [rewrite !length_map; exact Lci | exact Hp |].
  destruct (select_at keep (map Scalar (map Str countries)) (nrows sh) p i Hlen) as (_ & _ & E2);
    [rewrite !length_map; exact Lco | exact Hp |].
  destruct (nth_error_Some_lt cities i) as (city & Eci); [lia|].
  destruct (nth_error_Some_lt countries i) as (country & Eco); [lia|].
  exists city, country.
  unfold cell_at. rewrite Hci, Hco, E1, E2, !nth_error_map, Eci, Eco.
  split; [reflexivity|]. split; [reflexivity|].
  destruct (lookup (py "location") (renamed sh)) as [loc|] eqn:El.
  - split; [discriminate|].
    destruct Hloc as (rows & R & -> & ->).
    apply mapM_Forall2 in R.
    assert (Hrow : forall v, nth_error loc i = Some v ->
              exists d, split_location v = OK (d, city, country)).
    { intros v Hv.
      destruct (Forall2_nth_error _ _ _ R i v Hv) as (r & Er & Hr).
      rewrite nth_error_map, Er in Eci, Eco. cbn [option_map] in Eci, Eco.
      injection Eci as <-. injection Eco as <-.
      destruct r as [[d c] k]. exists d. exact Hr. }
    split.
    + intros Hv. destruct (Hrow _ Hv) as (d & Hd).
      vm_compute in Hd. injection Hd as _ <- <-. split; reflexivity.
    + intros s Hv Hs. destruct (Hrow _ Hv) as (d & Hd).
      destruct (split_location_no_comma _ _ _ _ _ Hd (clean_data_Str s)
                  (clean_text_no_comma s Hs)) as (_ & Hcity & Hcountry).
      split; assumption.
  - destruct Hloc as [-> ->].
    split; [|split; [intros Hv; discriminate | intros s Hv; discriminate]].
    intros _.
    apply nth_error_In in Eci, Eco. apply repeat_spec in Eci, Eco. split; assumption.
Qed.

Lemma load_data_city_country_witness :
  exists city country,
    cell_at (columns locations_table) (py "city") 1 = Some (Scalar (Str city))
    /\ cell_at (columns locations_table) (py "country") 1 = Some (Scalar (Str country))
    /\ (lookup (py "location") (renamed locations_sheet) = None ->
          city = NA /\ country = NA)
    /\ (cell_at (renamed locations_sheet) (py "location") 1 = Some NoneV ->
          city = NA /\ country = NA)
    /\ (forall s, cell_at (renamed locations_sheet) (py "location") 1 = Some (Str s) ->
          contains comma s = false \/ has_letter s = false ->
          city = NA /\ country = NA).
Proof.
  apply (load_data_city_country locations_sheet locations_table); vm_compute; reflexivity.
Defined.

(** C5. Two location values that are unknown and do not end as
    ["N/A"]. An empty cell, read as NaN, makes [clean_data] raise
    [AttributeError], so [load_data] returns no table at all (the defect
    of C7). A location whose part before the last is empty, as in
    ["Giza,,Egypt"], gives the empty text as city: the fallback
    [else "N/A"] of line 27 is guarded by [len(parts) > 1], which always
    holds behind [',' in loc], and never fires. *)
Theorem load_data_unknown_location :
  load_data empty_location_sheet = Error AttributeError
  /\ exists out,
       load_data empty_city_sheet = OK out
       /\ cell_at (columns out) (py "city") 0 = Some (Scalar (Str []))
       /\ cell_at (columns out) (py "city") 0 <> Some (Scalar (Str NA))
       /\ cell_at (columns out) (py "country") 0 = Some (Scalar (Str (py "Egypt"))).
Proof.
  split; [vm_compute; reflexivity|].
  eexists. split; [vm_compute; reflexivity|].
  split; [reflexivity|]. split; [discriminate | reflexivity].
Qed.

(** ** When [load_data] returns *)

Lemma mapM_Str_total {B} (f : cell -> result B) l :
  (forall t, is_ok (f (Str t)) = true) -> exists l', mapM f (map Str l) = OK l'.
Proof.
  intros H. apply mapM_total. apply Forall_map. apply Forall_forall. intros t _. apply H.
Qed.

Lemma city_of_Str t : is_ok (city_of (Str t)) = true.
Proof. unfold city_of. cbn [isna]. destruct (contains comma t); reflexivity. Qed.

Lemma country_of_Str t : is_ok (country_of (Str t)) = true.
Proof. unfold country_of. cbn [isna]. destruct (contains comma t); reflexivity. Qed.

Lemma clean_and_deduplicate_Str t : is_ok (clean_and_deduplicate_skills (Str t)) = true.
Proof. reflexivity. Qed.

Lemma clean_location_total df :
  (forall loc, lookup (py "location") (columns df) = Some loc ->
     Forall (fun v => is_ok (clean_data v) = true) loc) ->
  exists df1, clean_location df = OK df1.
Proof.
  intros H. unfold clean_location.
  destruct (has_col df (py "location")) eqn:Hloc; [|eexists; reflexivity].
  apply has_col_lookup in Hloc.
  destruct (lookup (py "location") (columns df)) as [loc|] eqn:El; [|congruence].
  unfold getitem at 1. rewrite El. cbn [bind].
  destruct (mapM_total clean_data loc (H loc eq_refl)) as (cleaned & ->). cbn [bind].
  unfold getitem at 1. cbn [setitem columns]. rewrite lookup_assign_same. cbn [bind].
  unfold extract_city.
  destruct (mapM_Str_total city_of cleaned city_of_Str) as (cities & ->). cbn [bind].
  unfold getitem at 1. cbn [setitem columns].
  rewrite lookup_assign_other by (apply label_neq; reflexivity).
  rewrite lookup_assign_same. cbn [bind].
  unfold extract_country.
  destruct (mapM_Str_total country_of cleaned country_of_Str) as (pairs & ->). cbn [bind].
  eexists; reflexivity.
Qed.

Lemma clean_skills_column_total df :
  (forall sk, lookup (py "skills") (columns df) = Some sk ->
     Forall (fun v => is_ok (clean_skills v) = true) sk) ->
  exists df2, clean_skills_column df = OK df2.
Proof.
  intros H. unfold clean_skills_column.
  destruct (has_col df (py "skills")) eqn:Hsk; [|eexists; reflexivity].
  apply has_col_lookup in Hsk.
  destruct (lookup (py "skills") (columns df)) as [sk|] eqn:El; [|congruence].
  unfold getitem at 1. rewrite El. cbn [bind].
  destruct (mapM_total clean_skills sk (H sk eq_refl)) as (cleaned & ->). cbn [bind].
  unfold getitem at 1. cbn [setitem columns]. rewrite lookup_assign_same. cbn [bind].
  destruct (mapM_Str_total clean_and_deduplicate_skills cleaned clean_and_deduplicate_Str)
    as (unique & ->). cbn [bind].
  unfold getitem at 1. cbn [setitem columns]. rewrite lookup_assign_same. cbn [bind].
  eexists; reflexivity.
Qed.

(** [load_data] returns a table as soon as the sheet has the two key
    columns and the cells of its location and skills columns, if it has
    them, are ones [clean_data] and [clean_skills] accept. *)
Lemma load_data_returns sh :
  lookup (py "job_title") (renamed sh) <> None ->
  lookup (py "company") (renamed sh) <> None ->
  (forall loc, lookup (py "location") (renamed sh) = Some loc ->
     Forall (fun v => is_ok (clean_data v) = true) loc) ->
  (forall sk, lookup (py "skills") (renamed sh) = Some sk ->
     Forall (fun v => is_ok (clean_skills v) = true) sk) ->
  exists out, load_data sh = OK out.
Proof.
  intros Ht Hc Hloc Hsk. unfold load_data.
  destruct (clean_location_total (rename_columns (read_excel sh)) Hloc) as (df1 & E1).
  rewrite E1. cbn [bind].
  apply clean_location_spec in E1. destruct E1 as (_ & P1 & _).
  change (columns (rename_columns (read_excel sh))) with (renamed sh) in P1.
  destruct (clean_skills_column_total df1) as (df2 & E2).
  { rewrite P1 by (vm_compute; intuition discriminate). exact Hsk. }
  rewrite E2. cbn [bind].
  apply clean_skills_column_spec in E2. destruct E2 as (_ & P2 & _).
  destruct (drop_unnecessary_spec df2) as (_ & P3).
  unfold drop_duplicates.
  destruct (empty (drop_unnecessary df2)); [eexists; reflexivity|].
  unfold getitem.
  rewrite !P3.
  replace (mem (py "job_title") [py "salary"; py "location"]) with false by reflexivity.
  replace (mem (py "company") [py "salary"; py "location"]) with false by reflexivity.
  rewrite !P2 by (vm_compute; intuition discriminate).
  rewrite !P1 by (vm_compute; intuition discriminate).
  destruct (lookup (py "job_title") (renamed sh)); [|congruence].
  destruct (lookup (py "company") (renamed sh)); [|congruence].
  cbn [option_map bind]. eexists; reflexivity.
Qed.

(** C6 (as amended). For every sheet whose columns have one cell per
    row and whose labels stay distinct once normalized, and that has the
    job_title and the company column, a missing location or skills
    column does not make [load_data] raise. Without a location column
    (the skills cells, if there are any, not being numbers) it returns a
    table whose city and country are ["N/A"] in every row; without a
    skills column (the location cells, if there are any, being texts,
    [None] or zero) it returns a table whose [skills_list] is the empty
    list in every row. *)
Theorem load_data_missing_columns sh :
  sheet_ok sh = true ->
  lookup (py "job_title") (renamed sh) <> None ->
  lookup (py "company") (renamed sh) <> None ->
  (lookup (py "location") (renamed sh) = None ->
   (forall sk, lookup (py "skills") (renamed sh) = Some sk ->
      Forall (fun v => is_ok (clean_skills v) = true) sk) ->
   exists out,
     load_data sh = OK out
     /\ forall p, p < length (index out) ->
          cell_at (columns out) (py "city") p = Some (Scalar (Str NA))
          /\ cell_at (columns out) (py "country") p = Some (Scalar (Str NA)))
  /\ (lookup (py "skills") (renamed sh) = None ->
      (forall loc, lookup (py "location") (renamed sh) = Some loc ->
         Forall (fun v => is_ok (clean_data v) = true) loc) ->
      exists out,
        load_data sh = OK out
        /\ forall p, p < length (index out) ->
             cell_at (columns out) (py "skills_list") p = Some (ListV [])).
Proof.
  intros Hok Ht Hc. split.
  - intros Hnone Hsk.
    destruct (load_data_returns sh Ht Hc) as (out & Hload); [rewrite Hnone; discriminate | exact Hsk |].
    exists out. split; [exact Hload|]. intros p Hp.
    destruct (nth_error_Some_lt (index out) p Hp) as (i & Ei).
    destruct (load_data_city_country sh out Hok Hload p i Ei)
      as (city & country & E1 & E2 & HNA & _).
    destruct (HNA Hnone) as [-> ->]. split; assumption.
  - intros Hnone Hloc.
    destruct (load_data_returns sh Ht Hc Hloc) as (out & Hload); [rewrite Hnone; discriminate |].
    exists out. split; [exact Hload|]. intros p Hp.
    destruct (load_data_inv sh out Hok Hload)
      as (keep & Hlen & Hidx & _ & _ & _ &
          cities & countries & lists & _ & _ & Lli & _ & _ & Hli & _ & Hskills).
    destruct (nth_error_Some_lt (index out) p Hp) as (i & Ei).
    rewrite Hidx in Ei.
    destruct (select_at keep (map ListV lists) (nrows sh) p i Hlen) as (Hi & _ & E);
      [rewrite length_map; exact Lli | exact Ei |].
    unfold cell_at. rewrite Hli, E, nth_error_map.
    rewrite Hnone in Hskills. subst lists.
    destruct (nth_error_Some_lt (repeat (@nil str) (nrows sh)) i) as (l & El);
      [rewrite repeat_length; exact Hi|].
    rewrite El. cbn [option_map].
    apply nth_error_In, repeat_spec in El. subst l. reflexivity.
Qed.

Lemma load_data_missing_columns_witness :
  (exists out,
     load_data salary_sheet = OK out
     /\ forall p, p < length (index out) ->
          cell_at (columns out) (py "city") p = Some (Scalar (Str NA))
          /\ cell_at (columns out) (py "country") p = Some (Scalar (Str NA)))
  /\ (exists out,
        load_data salary_sheet = OK out
        /\ forall p, p < length (index out) ->
             cell_at (columns out) (py "skills_list") p = Some (ListV [])).
Proof.
  assert (Hok : sheet_ok salary_sheet = true) by (vm_compute; reflexivity).
  assert (Ht : lookup (py "job_title") (renamed salary_sheet) <> None)
    by (vm_compute; discriminate).
  assert (Hc : lookup (py "company") (renamed salary_sheet) <> None)
    by (vm_compute; discriminate).
  destruct (load_data_missing_columns salary_sheet Hok Ht Hc) as [H1 H2].
  split.
  - apply H1; [vm_compute; reflexivity | intros sk H; vm_compute in H; discriminate].
  - apply H2; [vm_compute; reflexivity | intros loc H; vm_compute in H; discriminate].
Defined.

(** C6 as it was stated covers every sheet; this one, with one row and
    no company column, makes [drop_duplicates] raise [KeyError]. *)
Lemma load_data_no_company_raises :
  load_data no_company_sheet = Error KeyError
  /\ ~ (exists out, load_data no_company_sheet = OK out).
Proof.
  split; [vm_compute; reflexivity|].
  intros (out & H). vm_compute in H. discriminate.
Qed.

(** C7. A location cell that is [None] gives ["N/A"] three times. An
    empty cell of the sheet, which [read_excel] hands over as NaN, does
    not: NaN is true, [clean_data] goes on to [text.strip()] and raises
    [AttributeError], and so does [load_data] on a sheet with such a
    cell. *)
Theorem split_location_absent :
  split_location NoneV = OK (NA, NA, NA)
  /\ clean_data NaN = Error AttributeError
  /\ split_location NaN = Error AttributeError
  /\ load_data empty_location_sheet = Error AttributeError.
Proof. repeat split. Qed.

(** C10. When the sheet has a salary column, the table [load_data]
    returns has none, whether or not the sheet has a location column;
    every column [load_data] neither writes nor drops is still there,
    and holds in each row the cell that row had in the sheet. *)
Theorem load_data_drops_salary sh out :
  sheet_ok sh = true ->
  has_col (rename_columns (read_excel sh)) (py "salary") = true ->
  load_data sh = OK out ->
  has_col out (py "salary") = false
  /\ forall c, ~ In c reserved ->
       has_col out c = has_col (rename_columns (read_excel sh)) c
       /\ forall p i, nth_error (index out) p = Some i ->
            cell_at (columns out) c p = option_map Scalar (cell_at (renamed sh) c i).
Proof.
  intros Hok _ Hload.
  destruct (load_data_inv sh out Hok Hload)
    as (keep & Hlen & Hidx & Pass & Hsal & _).
  split; [apply has_col_false; exact Hsal|].
  intros c Hc. specialize (Pass c Hc).
  change (columns (rename_columns (read_excel sh))) with (renamed sh) in *.
  split.
  - destruct (has_col (rename_columns (read_excel sh)) c) eqn:E.
    + apply has_col_lookup. apply has_col_lookup in E.
      change (columns (rename_columns (read_excel sh))) with (renamed sh) in E.
      rewrite Pass. destruct (lookup c (renamed sh)); [discriminate | congruence].
    + apply has_col_false. apply has_col_false in E.
      change (columns (rename_columns (read_excel sh))) with (renamed sh) in E.
      rewrite Pass, E. reflexivity.
  - intros p i Hp. unfold cell_at. rewrite Pass.
    destruct (lookup c (renamed sh)) as [col|] eqn:El; [|reflexivity].
    cbn [option_map]. rewrite Hidx in Hp.
    destruct (select_at keep (map Scalar col) (nrows sh) p i Hlen) as (_ & _ & E);
      [rewrite length_map; apply (renamed_length sh c col Hok El) | exact Hp |].
    rewrite E. apply nth_error_map.
Qed.

Lemma load_data_drops_salary_witness :
  has_col salary_table (py "salary") = false
  /\ forall c, ~ In c reserved ->
       has_col salary_table c = has_col (rename_columns (read_excel salary_sheet)) c
       /\ forall p i, nth_error (index salary_table) p = Some i ->
            cell_at (columns salary_table) c p
            = option_map Scalar (cell_at (renamed salary_sheet) c i).
Proof.
  apply (load_data_drops_salary salary_sheet salary_table); vm_compute; reflexivity.
Defined.

(** ** How [load_data] ends *)

Lemma clean_data_ok v : is_ok (clean_data v) = location_cell_ok v.
Proof.
  destruct v as [s|z| |]; try reflexivity.
  - rewrite clean_data_Str. reflexivity.
  - unfold clean_data. cbn [truthy location_cell_ok].
    destruct (Z.eqb z 0); reflexivity.
Qed.

Lemma clean_skills_ok v : is_ok (clean_skills v) = skills_cell_ok v.
Proof. destruct v; reflexivity. Qed.

Lemma clean_data_raises v e : clean_data v = Error e -> e = AttributeError.
Proof.
  destruct v as [s|z| |]; unfold clean_data; cbn [truthy negb].
  - rewrite <- clean_data_Str. rewrite clean_data_Str.
    destruct s; cbn; congruence.
  - destruct (Z.eqb z 0); cbn [negb]; congruence.
  - congruence.
  - congruence.
Qed.

Lemma clean_skills_raises v e : clean_skills v = Error e -> e = AttributeError.
Proof. destruct v; cbn; congruence. Qed.

Lemma mapM_all_ok {A B} (f : A -> result B) (ok : A -> bool) l :
  (forall a, is_ok (f a) = ok a) -> forallb ok l = true ->
  exists l', mapM f l = OK l'.
Proof.
  intros Hf H. apply mapM_total. apply Forall_forall. intros a Ha.
  rewrite Hf. rewrite forallb_forall in H. apply H, Ha.
Qed.

(** A loop over a column stops at the first cell its body rejects. *)
Lemma mapM_some_bad {A B} (f : A -> result B) (ok : A -> bool) l e0 :
  (forall a, is_ok (f a) = ok a) ->
  (forall a e, f a = Error e -> e = e0) ->
  forallb ok l = false -> mapM f l = Error e0.
Proof.
  intros Hf He. induction l as [|a l IH]; [discriminate|].
  cbn [forallb mapM]. intros H.
  destruct (f a) as [b|e] eqn:Ea; cbn [bind].
  - assert (Hok : ok a = true) by (rewrite <- Hf, Ea; reflexivity).
    rewrite Hok in H. cbn [andb] in H. rewrite (IH H). reflexivity.
  - f_equal. eapply He. exact Ea.
Qed.

Lemma column_ok_Forall ok f sh c :
  (forall a : cell, is_ok (f a) = ok a) ->
  column_ok ok sh c = true ->
  forall col, lookup c (renamed sh) = Some col ->
    Forall (fun v => @is_ok str (f v) = true) col.
Proof.
  unfold column_ok. intros Hf H col Hc. rewrite Hc in H.
  apply Forall_forall. intros v Hv. rewrite Hf.
  rewrite forallb_forall in H. apply H, Hv.
Qed.

(** X3. How [load_data] ends, for every sheet whose labels stay distinct
    once normalized: with [AttributeError] when the location column
    holds a cell that is NaN or a non-zero number, or the skills column
    holds a number; otherwise with a table when the sheet has no row, or
    has both the job_title and the company column; otherwise (a sheet
    with rows that lacks one of the two) with [KeyError]. *)
Theorem load_data_outcome sh :
  sheet_ok sh = true ->
  match cells_ok sh, keys_present sh || (nrows sh =? 0) with
  | false, _ => load_data sh = Error AttributeError
  | true, false => load_data sh = Error KeyError
  | true, true => exists out, load_data sh = OK out
  end.
Proof.
  intros _. unfold cells_ok.
  destruct (column_ok location_cell_ok sh (py "location")) eqn:Hloc; cbn [andb].
  - pose proof (column_ok_Forall _ _ _ _ clean_data_ok Hloc) as Floc.
    destruct (clean_location_total (rename_columns (read_excel sh)) Floc) as (df1 & E1).
    pose proof E1 as S1. apply clean_location_spec in S1. destruct S1 as (I1 & P1 & _).
    change (columns (rename_columns (read_excel sh))) with (renamed sh) in P1.
    change (index (rename_columns (read_excel sh))) with (seq 0 (nrows sh)) in I1.
    assert (Hsk1 : lookup (py "skills") (columns df1) = lookup (py "skills") (renamed sh)).
    { apply P1. vm_compute. intuition discriminate. }
    destruct (column_ok skills_cell_ok sh (py "skills")) eqn:Hsk.
    + pose proof (column_ok_Forall _ _ _ _ clean_skills_ok Hsk) as Fsk.
      destruct (clean_skills_column_total df1) as (df2 & E2);
        [rewrite Hsk1; exact Fsk|].
      pose proof E2 as S2. apply clean_skills_column_spec in S2.
      destruct S2 as (I2 & P2 & lists & Hli & _).
      destruct (drop_unnecessary_spec df2) as (I3 & P3).
      assert (Hempty : empty (drop_unnecessary df2) = (nrows sh =? 0)).
      { unfold empty. rewrite I3, I2, I1.
        assert (Hcols : is_nil (columns (drop_unnecessary df2)) = false).
        { specialize (P3 (py "skills_list")).
          replace (mem (py "skills_list") [py "salary"; py "location"]) with false
            in P3 by reflexivity.
          rewrite Hli in P3.
          destruct (columns (drop_unnecessary df2)); [discriminate P3 | reflexivity]. }
        rewrite Hcols, orb_false_r. destruct (nrows sh); reflexivity. }
      unfold load_data. rewrite E1. cbn [bind]. rewrite E2. cbn [bind].
      unfold drop_duplicates. rewrite Hempty.
      destruct (nrows sh =? 0).
      * rewrite orb_true_r. eexists. reflexivity.
      * rewrite orb_false_r. unfold getitem. rewrite !P3.
        replace (mem (py "job_title") [py "salary"; py "location"]) with false by reflexivity.
        replace (mem (py "company") [py "salary"; py "location"]) with false by reflexivity.
        rewrite !P2 by (vm_compute; intuition discriminate).
        rewrite !P1 by (vm_compute; intuition discriminate).
        destruct (keys_present sh) eqn:Hkeys; unfold keys_present in Hkeys.
        -- apply andb_prop in Hkeys. destruct Hkeys as [Ht Hc].
           apply has_col_lookup in Ht, Hc.
           change (columns (rename_columns (read_excel sh))) with (renamed sh) in Ht, Hc.
           destruct (lookup (py "job_title") (renamed sh)); [|congruence].
           destruct (lookup (py "company") (renamed sh)); [|congruence].
           cbn [option_map bind]. eexists. reflexivity.
        -- apply andb_false_iff in Hkeys.
           destruct Hkeys as [H|H]; apply has_col_false in H;
             change (columns (rename_columns (read_excel sh))) with (renamed sh) in H;
             rewrite H; cbn [option_map bind]; [reflexivity|].
           destruct (lookup (py "job_title") (renamed sh)); reflexivity.
    + unfold load_data. rewrite E1. cbn [bind].
      unfold column_ok in Hsk. rewrite <- Hsk1 in Hsk.
      destruct (lookup (py "skills") (columns df1)) as [sk|] eqn:El; [|discriminate].
      unfold clean_skills_column.
      replace (has_col df1 (py "skills")) with true
        by (symmetry; apply has_col_lookup; congruence).
      unfold getitem at 1. rewrite El. cbn [bind].
      rewrite (mapM_some_bad clean_skills skills_cell_ok sk AttributeError
                 clean_skills_ok clean_skills_raises Hsk).
      reflexivity.
  - unfold load_data, clean_location. unfold column_ok in Hloc.
    change (columns (rename_columns (read_excel sh))) with (renamed sh).
    destruct (lookup (py "location") (renamed sh)) as [loc|] eqn:El; [|discriminate].
    replace (has_col (rename_columns (read_excel sh)) (py "location")) with true.
    2:{ symmetry. apply has_col_lookup.
        change (columns (rename_columns (read_excel sh))) with (renamed sh). congruence. }
    unfold getitem at 1.
    change (columns (rename_columns (read_excel sh))) with (renamed sh).
    rewrite El. cbn [bind].
    rewrite (mapM_some_bad clean_data location_cell_ok loc AttributeError
               clean_data_ok clean_data_raises Hloc).
    reflexivity.
Qed.

Lemma load_data_outcome_witness :
  load_data empty_location_sheet = Error AttributeError
  /\ load_data no_company_sheet = Error KeyError
  /\ (exists out, load_data header_only_sheet = OK out)
  /\ exists out, load_data demo_sheet = OK out.
Proof.
  split; [exact (load_data_outcome empty_location_sheet eq_refl)|].
  split; [exact (load_data_outcome no_company_sheet eq_refl)|].
  split; [exact (load_data_outcome header_only_sheet eq_refl)|].
  exact (load_data_outcome demo_sheet eq_refl).
Defined.

(** ** The skills columns of the returned table *)

Lemma load_data_skills_inv sh out :
  sheet_ok sh = true -> load_data sh = OK out ->
  exists keep,
    length keep = nrows sh
    /\ index out = select keep (seq 0 (nrows sh))
    /\ match lookup (py "skills") (renamed sh) with
       | None =>
           lookup (py "skills_list") (columns out)
           = Some (select keep (repeat (ListV []) (nrows sh)))
       | Some sk => exists texts,
           mapM normalize_skills sk = OK texts
           /\ lookup (py "skills") (columns out)
              = Some (select keep (map Scalar (map Str texts)))
           /\ lookup (py "skills_list") (columns out)
              = Some (select keep (map ListV (map re_split texts)))
       end.
Proof.
  intros Hok H.
  destruct (load_data_inv sh out Hok H)
    as (keep & Hlen & Hidx & _ & _ & _ &
        cities & countries & lists & _ & _ & _ & _ & _ & Hli & _ & Hsk).
  exists keep. split; [exact Hlen|]. split; [exact Hidx|].
  destruct (lookup (py "skills") (renamed sh)) as [sk|].
  - destruct Hsk as (texts & T1 & -> & Hcol). exists texts.
    split; [exact T1|]. split; [exact Hcol | exact Hli].
  - rewrite Hli, Hsk, map_repeat. reflexivity.
Qed.

Lemma normalize_skills_parsed v o :
  normalize_skills v = OK o ->
  NoDup (re_split o)
  /\ Forall (fun skill => mem skill job_type_keywords = false) (re_split o)
  /\ join (py ", ") (re_split o) = o
  /\ (isna v = true -> o = NA /\ re_split o = [NA]).
Proof.
  destruct v as [s|z| |]; intros H.
  - destruct (parsed_skills s) as (o' & E & _ & H2 & H3 & H4).
    assert (o' = o) by congruence. subst o'.
    repeat split; try assumption; discriminate.
  - discriminate.
  - injection H as <-. repeat split; try reflexivity.
    + repeat constructor. intros [].
    + repeat constructor.
  - injection H as <-. repeat split; try reflexivity.
    + repeat constructor. intros [].
    + repeat constructor.
Qed.

(** X5. In every row of the table [load_data] returns, [skills_list]
    holds a list without repetition and without job-type keyword. When
    the sheet has a skills column, the skills cell of the row is the
    normalized text of the sheet's cell, [skills_list] is that text cut
    at the commas, and joining it with [", "] gives the text back; a
    missing skills cell gives the text ["N/A"] and the one-entry list
    ["N/A"]. Without a skills column the list is empty. *)
Theorem load_data_skills sh out :
  sheet_ok sh = true -> load_data sh = OK out ->
  forall p i, nth_error (index out) p = Some i ->
    exists l,
      cell_at (columns out) (py "skills_list") p = Some (ListV l)
      /\ NoDup l
      /\ Forall (fun skill => mem skill job_type_keywords = false) l
      /\ (lookup (py "skills") (renamed sh) = None -> l = [])
      /\ (forall v, cell_at (renamed sh) (py "skills") i = Some v ->
            exists o,
              normalize_skills v = OK o
              /\ cell_at (columns out) (py "skills") p = Some (Scalar (Str o))
              /\ l = re_split o
              /\ join (py ", ") l = o
              /\ (isna v = true -> o = NA /\ l = [NA])).
Proof.
  intros Hok Hload p i Hp.
  destruct (load_data_skills_inv sh out Hok Hload) as (keep & Hlen & Hidx & Hsk).
  rewrite Hidx in Hp. unfold cell_at.
  destruct (lookup (py "skills") (renamed sh)) as [sk|] eqn:Es.
  - destruct Hsk as (texts & T1 & Hcol & Hli).
    pose proof (renamed_length sh _ _ Hok Es) as Lsk.
    pose proof (mapM_length _ _ _ T1) as Lt.
    destruct (select_at keep (map ListV (map re_split texts)) (nrows sh) p i Hlen)
      as (Hi & _ & E1); [rewrite !length_map; lia | exact Hp |].
    destruct (select_at keep (map Scalar (map Str texts)) (nrows sh) p i Hlen)
      as (_ & _ & E2); [rewrite !length_map; lia | exact Hp |].
    destruct (nth_error_Some_lt texts i) as (o & Eo); [lia|].
    apply mapM_Forall2 in T1.
    destruct (nth_error_Some_lt sk i) as (v & Ev); [lia|].
    destruct (Forall2_nth_error _ _ _ T1 i v Ev) as (o' & Eo' & Hv).
    assert (o' = o) by congruence. subst o'.
    destruct (normalize_skills_parsed v o Hv) as (N1 & N2 & N3 & N4).
    exists (re_split o).
    rewrite Hli, Hcol, E1, E2, !nth_error_map, Eo. cbn [option_map].
    split; [reflexivity|]. split; [exact N1|]. split; [exact N2|].
    split; [discriminate|].
    intros v' Hv'. assert (v' = v) by congruence. subst v'.
    exists o. repeat split; try assumption; apply N4; assumption.
  - destruct (select_at keep (repeat (ListV []) (nrows sh)) (nrows sh) p i Hlen)
      as (Hi & _ & E1); [apply repeat_length | exact Hp |].
    exists []. rewrite Hsk, E1.
    destruct (nth_error_Some_lt (repeat (ListV []) (nrows sh)) i) as (x & Ex);
      [rewrite repeat_length; exact Hi|].
    rewrite Ex. apply nth_error_In, repeat_spec in Ex. subst x.
    split; [reflexivity|]. split; [constructor|]. split; [constructor|].
    split; [reflexivity|]. intros v Hv. discriminate.
Qed.

Lemma load_data_skills_witness :
  exists l,
    cell_at (columns demo_table) (py "skills_list") 0 = Some (ListV l)
    /\ NoDup l
    /\ Forall (fun skill => mem skill job_type_keywords = false) l
    /\ (lookup (py "skills") (renamed demo_sheet) = None -> l = [])
    /\ (forall v, cell_at (renamed demo_sheet) (py "skills") 0 = Some v ->
          exists o,
            normalize_skills v = OK o
            /\ cell_at (columns demo_table) (py "skills") 0 = Some (Scalar (Str o))
            /\ l = re_split o
            /\ join (py ", ") l = o
            /\ (isna v = true -> o = NA /\ l = [NA])).
Proof.
  apply (load_data_skills demo_sheet demo_table); vm_compute; reflexivity.
Defined.

(** ** Dropping duplicates twice *)

Lemma select_combine {A B} keep : forall (l : list A) (m : list B),
  length l = length m ->
  select keep (combine l m) = combine (select keep l) (select keep m).
Proof.
  induction keep as [|b keep IH]; intros [|x l] [|y m] H; try discriminate; try reflexivity.
  cbn [length] in H. injection H as H. cbn [select combine].
  destruct b; cbn [combine]; rewrite (IH l m H); reflexivity.
Qed.

Lemma duplicated_from_NoDup keys : forall seen,
  NoDup keys -> (forall k, In k keys -> ~ In k seen) ->
  duplicated_from seen keys = repeat false (length keys).
Proof.
  induction keys as [|k keys IH]; intros seen Hn Hs; [reflexivity|].
  inversion Hn as [|? ? Hk Hn']; subst.
  cbn [duplicated_from length repeat].
  destruct (existsb (rowkey_eqb k) seen) eqn:E.
  - apply seen_In in E. exfalso. apply (Hs k); [left; reflexivity | exact E].
  - f_equal. apply IH; [exact Hn'|].
    intros k' Hk' [<-|Hin]; [contradiction|].
    apply (Hs k'); [right; exact Hk' | exact Hin].
Qed.

(** On a well-formed table whose rows have pairwise different
    keys, [drop_duplicates] changes nothing. *)
Theorem drop_duplicates_unique df a b ca cb :
  regular df ->
  lookup a (columns df) = Some ca -> lookup b (columns df) = Some cb ->
  NoDup (combine (map key_of ca) (map key_of cb)) ->
  drop_duplicates df a b = OK df.
Proof.
  intros Hr Ha Hb Hn. unfold drop_duplicates.
  destruct (empty df); [reflexivity|].
  unfold getitem. rewrite Ha, Hb. cbn [bind].
  unfold duplicated. rewrite duplicated_from_NoDup by (auto; intros k _ []).
  rewrite map_repeat. cbn [negb].
  assert (Hlen : @length rowkey (combine (map key_of ca) (map key_of cb)) = length (index df)).
  { etransitivity; [apply length_combine|]. rewrite !length_map.
    rewrite (regular_lookup df a ca Hr Ha), (regular_lookup df b cb Hr Hb). lia. }
  rewrite Hlen. rewrite select_true by reflexivity.
  destruct df as [idx cols]. cbn [index columns] in *. do 2 f_equal.
  unfold regular in Hr. cbn [index columns] in Hr. rewrite Forall_forall in Hr.
  rewrite <- (map_id cols) at 2. apply map_ext_in. intros [c col] Hin.
  cbn [fst snd]. f_equal. apply select_true. apply (Hr _ Hin).
Qed.

Lemma drop_duplicates_unique_witness :
  drop_duplicates demo_table (py "job_title") (py "company") = OK demo_table.
Proof.
  apply (drop_duplicates_unique demo_table (py "job_title") (py "company")
           [Scalar (Str (py "Dev"))] [Scalar (Str (py "Acme"))]).
  - repeat constructor.
  - reflexivity.
  - reflexivity.
  - repeat constructor. intros [].
Defined.

(** [drop_duplicates] is idempotent on well-formed tables: the
    table it returns has no duplicate left, so dropping again returns
    the same table. *)
Theorem drop_duplicates_idempotent df a b out :
  regular df -> drop_duplicates df a b = OK out ->
  drop_duplicates out a b = OK out.
Proof.
  intros Hr H. pose proof (regular_drop_duplicates df a b out Hr H) as Hro.
  apply drop_duplicates_spec in H.
  destruct H as [[He ->]|(_ & ca & cb & Ha & Hb & _ & P)].
  { unfold drop_duplicates. rewrite He. reflexivity. }
  set (keep := map negb (duplicated (combine (map key_of ca) (map key_of cb)))) in *.
  apply (drop_duplicates_unique out a b (select keep ca) (select keep cb) Hro).
  - rewrite P, Ha. reflexivity.
  - rewrite P, Hb. reflexivity.
  - rewrite <- !select_map, <- select_combine.
    + apply kept_rows_NoDup.
    + rewrite !length_map.
      rewrite (regular_lookup df a ca Hr Ha), (regular_lookup df b cb Hr Hb). reflexivity.
Qed.

Lemma drop_duplicates_idempotent_witness :
  drop_duplicates demo_table (py "job_title") (py "company") = OK demo_table.
Proof.
  apply (drop_duplicates_idempotent demo_table (py "job_title") (py "company") demo_table).
  - repeat constructor.
  - vm_compute. reflexivity.
Defined.

(** ** The filters of [main] *)

Lemma and_mask_true_r m n : length m = n -> and_mask m (repeat true n) = m.
Proof.
  revert n. induction m as [|b m IH]; intros n H; subst n; [reflexivity|].
  cbn [length repeat and_mask]. rewrite andb_true_r, IH; reflexivity.
Qed.

Lemma and_mask_true_l m n : length m = n -> and_mask (repeat true n) m = m.
Proof.
  revert n. induction m as [|b m IH]; intros n H; subst n; [reflexivity|].
  cbn [length repeat and_mask andb]. rewrite IH; reflexivity.
Qed.

Lemma length_and_mask m1 : forall m2,
  length m1 = length m2 -> length (and_mask m1 m2) = length m1.
Proof.
  induction m1 as [|b m1 IH]; intros [|b2 m2] H; try discriminate; [reflexivity|].
  cbn [length] in *. injection H as H. cbn [and_mask length]. rewrite IH; auto.
Qed.

(** Selecting among the selected rows is selecting once with both
    conditions. *)
Lemma select_select {A B} (f : B -> bool) m : forall (col : list B) (l : list A),
  length col = length m -> length l = length m ->
  select (map f (select m col)) (select m l) = select (and_mask m (map f col)) l.
Proof.
  induction m as [|b m IH]; intros [|y col] [|x l] Hc Hl; try discriminate; try reflexivity.
  cbn [length] in Hc, Hl. injection Hc as Hc. injection Hl as Hl.
  cbn [select map and_mask]. destruct b; cbn [select map andb].
  - destruct (f y); rewrite (IH col l Hc Hl); reflexivity.
  - apply IH; assumption.
Qed.

Lemma lookup_boolean_index df mask c :
  lookup c (columns (boolean_index df mask))
  = option_map (select mask) (lookup c (columns df)).
Proof. unfold boolean_index. cbn [columns]. apply lookup_map_values. Qed.

Lemma has_col_boolean_index df mask c :
  has_col (boolean_index df mask) c = has_col df c.
Proof.
  unfold has_col, labels, boolean_index. cbn [columns]. rewrite map_map. reflexivity.
Qed.

Lemma boolean_index_true df : regular df ->
  boolean_index df (repeat true (length (index df))) = df.
Proof.
  intros Hr. destruct df as [idx cols]. unfold boolean_index. cbn [index columns] in *.
  rewrite select_true by reflexivity. f_equal.
  unfold regular in Hr. cbn [index columns] in Hr. rewrite Forall_forall in Hr.
  rewrite <- (map_id cols) at 2. apply map_ext_in. intros [c col] Hin.
  cbn [fst snd]. f_equal. apply select_true. apply (Hr _ Hin).
Qed.

Lemma boolean_index_twice df m (f : value -> bool) col :
  regular df -> length m = length (index df) -> length col = length (index df) ->
  boolean_index (boolean_index df m) (map f (select m col))
  = boolean_index df (and_mask m (map f col)).
Proof.
  intros Hr Hm Hc. unfold boolean_index. cbn [index columns]. f_equal.
  - apply select_select; congruence.
  - rewrite map_map. apply map_ext_in. intros [c l] Hin. cbn [fst snd]. f_equal.
    unfold regular in Hr. rewrite Forall_forall in Hr. specialize (Hr _ Hin).
    cbn [snd] in Hr. apply select_select; congruence.
Qed.

Lemma selection_mask_length df c values :
  regular df -> length (selection_mask df c values) = length (index df).
Proof.
  intros Hr. unfold selection_mask.
  destruct (is_nil values); [apply repeat_length|].
  destruct (lookup c (columns df)) as [col|] eqn:E; [|apply repeat_length].
  rewrite length_map. apply (regular_lookup df c col Hr E).
Qed.

(** One filter of [main] on a table already restricted by [m]. *)
Lemma filter_step df m c values (guard : bool) :
  regular df -> length m = length (index df) ->
  (guard = true -> is_nil values = false /\ lookup c (columns df) <> None) ->
  (guard = false -> is_nil values = true \/ lookup c (columns df) = None) ->
  (if guard then filter_isin (boolean_index df m) c values
   else OK (boolean_index df m))
  = OK (boolean_index df (and_mask m (selection_mask df c values))).
Proof.
  intros Hr Hm Hon Hoff. unfold selection_mask. destruct guard.
  - destruct (Hon eq_refl) as [Hv Hc]. rewrite Hv.
    destruct (lookup c (columns df)) as [col|] eqn:E; [|congruence].
    unfold filter_isin, getitem. rewrite lookup_boolean_index, E. cbn [option_map bind].
    rewrite boolean_index_twice; [reflexivity | exact Hr | exact Hm |].
    apply (regular_lookup df c col Hr E).
  - destruct (Hoff eq_refl) as [Hv|Hc].
    + rewrite Hv, and_mask_true_r by exact Hm. reflexivity.
    + rewrite Hc. destruct (is_nil values); rewrite and_mask_true_r by exact Hm; reflexivity.
Qed.

(** X10. On a well-formed table with a city and a company column, the
    three filters of [main], applied one after the other, select the
    rows of the table by the conjunction of the three conditions, each
    read off the unfiltered table; an empty selection, or a job-type
    selection on a table without job_type column, restricts nothing. *)
Theorem apply_filters_mask df cities companies job_types :
  regular df ->
  lookup (py "city") (columns df) <> None ->
  lookup (py "company") (columns df) <> None ->
  apply_filters df cities companies job_types
  = OK (boolean_index df
          (and_mask (and_mask (selection_mask df (py "city") cities)
                              (selection_mask df (py "company") companies))
                    (selection_mask df (py "job_type") job_types))).
Proof.
  intros Hr Hcity Hcomp. unfold apply_filters.
  pose proof (selection_mask_length df (py "city") cities Hr) as L1.
  pose proof (selection_mask_length df (py "company") companies Hr) as L2.
  (* cities *)
  assert (S1 : (if is_nil cities then OK df else filter_isin df (py "city") cities)
               = OK (boolean_index df (selection_mask df (py "city") cities))).
  { pose proof (filter_step df (repeat true (length (index df))) (py "city") cities
                  (negb (is_nil cities)) Hr (repeat_length _ _)) as H.
    rewrite boolean_index_true in H by exact Hr.
    rewrite and_mask_true_l in H by exact L1.
    destruct (is_nil cities); cbn [negb] in H; apply H; intros; try discriminate; auto. }
  rewrite S1. cbn [bind].
  assert (S2 : (if is_nil companies
                then OK (boolean_index df (selection_mask df (py "city") cities))
                else filter_isin (boolean_index df (selection_mask df (py "city") cities))
                       (py "company") companies)
               = OK (boolean_index df
                       (and_mask (selection_mask df (py "city") cities)
                                 (selection_mask df (py "company") companies)))).
  { pose proof (filter_step df (selection_mask df (py "city") cities) (py "company") companies
                  (negb (is_nil companies)) Hr L1) as H.
    destruct (is_nil companies); cbn [negb] in H; apply H; intros; try discriminate; auto. }
  rewrite S2. cbn [bind].
  rewrite has_col_boolean_index.
  apply (filter_step df _ (py "job_type") job_types
           (negb (is_nil job_types) && has_col df (py "job_type")) Hr).
  - rewrite length_and_mask; congruence.
  - intros H. apply andb_prop in H. destruct H as [H1 H2].
    apply negb_true_iff in H1. apply has_col_lookup in H2. split; assumption.
  - intros H. apply andb_false_iff in H. destruct H as [H|H].
    + left. apply negb_false_iff in H. exact H.
    + right. apply has_col_false in H. exact H.
Qed.

Lemma apply_filters_mask_witness :
  apply_filters salary_table [AStr NA] [] [AStr (py "Remote")]
  = OK (boolean_index salary_table
          (and_mask (and_mask (selection_mask salary_table (py "city") [AStr NA])
                              (selection_mask salary_table (py "company") []))
                    (selection_mask salary_table (py "job_type") [AStr (py "Remote")]))).
Proof.
  apply (apply_filters_mask salary_table [AStr NA] [] [AStr (py "Remote")]).
  - repeat constructor.
  - vm_compute. discriminate.
  - vm_compute. discriminate.
Defined.

Example apply_filters_ex :
  apply_filters salary_table [AStr NA] [] [AStr (py "Remote")]
  = OK (mkDF [1]
          [ (py "job_title", [Scalar (Str (py "Ops"))]);
            (py "company", [Scalar NaN]);
            (py "job_type", [Scalar (Str (py "Remote"))]);
            (py "city", [Scalar (Str NA)]);
            (py "country", [Scalar (Str NA)]);
            (py "skills_list", [ListV []]) ]).
Proof. vm_compute. reflexivity. Qed.

(** ** What filtering keeps *)

Lemma select_incl {A} m : forall (l : list A), incl (select m l) l.
Proof.
  induction m as [|b m IH]; intros [|x l]; cbn [select]; try (intros y []).
  destruct b.
  - intros y [<-|H]; [left; reflexivity | right; apply IH, H].
  - intros y H. right. apply IH, H.
Qed.

Lemma select_length_le {A} m : forall (l : list A), length (select m l) <= length l.
Proof.
  induction m as [|b m IH]; intros [|x l]; cbn [select length]; try lia.
  destruct b; cbn [length]; specialize (IH l); lia.
Qed.

Lemma filter_isin_restricts df fdf c values out :
  restricts df fdf -> filter_isin fdf c values = OK out -> restricts df out.
Proof.
  unfold filter_isin. intros Hr H. inv_bind H. injection H as <-.
  apply restricts_step. exact Hr.
Qed.

Lemma apply_filters_restricts df cities companies job_types fdf :
  apply_filters df cities companies job_types = OK fdf -> restricts df fdf.
Proof.
  unfold apply_filters. intros H.
  inv_bind H. rename x into d1, E into E1.
  inv_bind H. rename x into d2, E into E2.
  assert (R1 : restricts df d1).
  { destruct (is_nil cities).
    - injection E1 as <-. constructor.
    - eapply filter_isin_restricts; [constructor | exact E1]. }
  assert (R2 : restricts df d2).
  { destruct (is_nil companies).
    - injection E2 as <-. exact R1.
    - eapply filter_isin_restricts; [exact R1 | exact E2]. }
  destruct (negb (is_nil job_types) && has_col d2 (py "job_type")).
  - eapply filter_isin_restricts; [exact R2 | exact H].
  - injection H as <-. exact R2.
Qed.

Lemma restricts_columns df fdf :
  restricts df fdf ->
  length (index fdf) <= length (index df)
  /\ forall c, match lookup c (columns df) with
               | Some col => exists col', lookup c (columns fdf) = Some col' /\ incl col' col
               | None => lookup c (columns fdf) = None
               end.
Proof.
  induction 1 as [|fdf mask Hr [IH1 IH2]].
  - split; [lia|]. intros c. destruct (lookup c (columns df)) as [col|]; [|reflexivity].
    exists col. split; [reflexivity | apply incl_refl].
  - split.
    + unfold boolean_index. cbn [index]. pose proof (select_length_le mask (index fdf)). lia.
    + intros c. specialize (IH2 c). rewrite lookup_boolean_index.
      destruct (lookup c (columns df)) as [col|].
      * destruct IH2 as (col' & -> & Hincl). cbn [option_map].
        exists (select mask col'). split; [reflexivity|].
        eapply incl_tran; [apply select_incl | exact Hincl].
      * rewrite IH2. reflexivity.
Qed.

Lemma restricts_has_col df fdf c : restricts df fdf -> has_col fdf c = has_col df c.
Proof.
  induction 1 as [|fdf mask Hr IH]; [reflexivity|].
  rewrite has_col_boolean_index. exact IH.
Qed.

Lemma iterate_incl col : forall subs col',
  mapM iterate col = OK subs -> incl col' col ->
  exists subs', mapM iterate col' = OK subs' /\ incl (concat subs') (concat subs).
Proof.
  intros subs col' H. apply mapM_Forall2 in H.
  induction col' as [|v col' IH]; intros Hincl.
  - exists []. split; [reflexivity | intros x []].
  - destruct IH as (subs' & E & Hsub); [intros x Hx; apply Hincl; right; exact Hx|].
    assert (Hv : In v col) by (apply Hincl; left; reflexivity).
    destruct (In_nth_error _ _ Hv) as (i & Hi).
    destruct (Forall2_nth_error _ _ _ H i v Hi) as (l & Hl & Ev).
    exists (l :: subs'). cbn [mapM]. rewrite Ev. cbn [bind]. rewrite E. cbn [bind].
    split; [reflexivity|]. cbn [concat]. intros x Hx.
    apply in_app_or in Hx. destruct Hx as [Hx|Hx]; [|apply Hsub, Hx].
    apply in_concat. exists l. split; [eapply nth_error_In; exact Hl | exact Hx].
Qed.

Lemma dedup_first_incl_length l' l :
  incl l' l -> length (dedup_first l') <= length (dedup_first l).
Proof.
  intros H. apply NoDup_incl_length; [apply dedup_first_NoDup|].
  intros x Hx. apply dedup_first_In. apply H. apply dedup_first_In. exact Hx.
Qed.

Lemma nunique_incl col' col : incl col' col -> nunique col' <= nunique col.
Proof.
  intros H. unfold nunique. apply NoDup_incl_length; [apply NoDup_nodup|].
  intros k Hk. apply nodup_In. apply nodup_In in Hk.
  apply filter_In in Hk. destruct Hk as [Hk Hna]. apply filter_In. split; [|exact Hna].
  apply in_map_iff in Hk. destruct Hk as (v & <- & Hv).
  apply in_map. apply H, Hv.
Qed.

(** X13. Filtering never raises a KPI: the filtered table has at most
    as many rows, at most as many distinct companies and at most as many
    distinct skills as the table it was filtered from, and the two
    counts are computed whenever they are on the unfiltered table. *)
Theorem filters_lower_metrics df cities companies job_types fdf :
  apply_filters df cities companies job_types = OK fdf ->
  total_jobs fdf <= total_jobs df
  /\ (forall n, unique_companies df = OK n ->
        exists n', unique_companies fdf = OK n' /\ n' <= n)
  /\ (forall n, unique_skills df = OK n ->
        exists n', unique_skills fdf = OK n' /\ n' <= n).
Proof.
  intros H. apply apply_filters_restricts in H.
  destruct (restricts_columns df fdf H) as [Hlen Hcols].
  split; [exact Hlen|]. split.
  - intros n. unfold unique_companies, getitem.
    rewrite (restricts_has_col df fdf _ H).
    destruct (has_col df (py "company")); [|intros E; injection E as <-; exists 0; auto].
    specialize (Hcols (py "company")).
    destruct (lookup (py "company") (columns df)) as [col|]; [|discriminate].
    destruct Hcols as (col' & -> & Hincl). cbn [bind].
    intros E. injection E as <-. eexists. split; [reflexivity|].
    apply nunique_incl, Hincl.
  - intros n. unfold unique_skills, all_skills, getitem.
    specialize (Hcols (py "skills_list")).
    destruct (lookup (py "skills_list") (columns df)) as [col|]; [|discriminate].
    destruct Hcols as (col' & -> & Hincl). cbn [bind].
    destruct (mapM iterate col) as [subs|] eqn:E; [|discriminate]. cbn [bind].
    intros En. injection En as <-.
    destruct (iterate_incl col subs col' E Hincl) as (subs' & -> & Hsub). cbn [bind].
    eexists. split; [reflexivity|]. apply dedup_first_incl_length, Hsub.
Qed.

Lemma filters_lower_metrics_witness :
  total_jobs (boolean_index salary_table [false; true]) <= total_jobs salary_table
  /\ (forall n, unique_companies salary_table = OK n ->
        exists n', unique_companies (boolean_index salary_table [false; true]) = OK n'
                   /\ n' <= n)
  /\ (forall n, unique_skills salary_table = OK n ->
        exists n', unique_skills (boolean_index salary_table [false; true]) = OK n'
                   /\ n' <= n).
Proof.
  apply (filters_lower_metrics salary_table [AStr NA] [] [AStr (py "Remote")]).
  vm_compute. reflexivity.
Defined.

(** ** From the sheet to the skills chart *)

Lemma iterate_lists (Q : str -> Prop) col :
  Forall (fun v => exists l, v = ListV l /\ Forall Q l) col ->
  exists subs, mapM iterate col = OK subs /\ Forall Q (concat subs).
Proof.
  induction 1 as [|v col (l & -> & Hl) Hcol (subs & E & Hs)].
  - exists []. split; [reflexivity | constructor].
  - exists (l :: subs). cbn [mapM iterate bind]. rewrite E. cbn [bind].
    split; [reflexivity|]. cbn [concat]. apply Forall_app. split; assumption.
Qed.

Lemma load_data_skills_lists sh out col :
  sheet_ok sh = true -> load_data sh = OK out ->
  lookup (py "skills_list") (columns out) = Some col ->
  Forall (fun v => exists l, v = ListV l
                   /\ Forall (fun skill => mem skill job_type_keywords = false) l) col.
Proof.
  intros Hok Hload Hcol.
  destruct (load_data_skills_inv sh out Hok Hload) as (keep & _ & _ & Hsk).
  apply Forall_forall. intros v Hv.
  destruct (lookup (py "skills") (renamed sh)) as [sk|].
  - destruct Hsk as (texts & T1 & _ & Hli). rewrite Hli in Hcol. injection Hcol as <-.
    apply select_incl in Hv. apply in_map_iff in Hv. destruct Hv as (l & <- & Hl).
    apply in_map_iff in Hl. destruct Hl as (o & <- & Ho).
    exists (re_split o). split; [reflexivity|].
    apply mapM_Forall2 in T1.
    destruct (In_nth_error _ _ Ho) as (i & Hi).
    assert (Hrev : exists v, normalize_skills v = OK o).
    { clear -T1 Hi. revert i Hi. induction T1 as [|a b sk texts Hab _ IH]; intros i Hi.
      - destruct i; discriminate.
      - destruct i as [|i]; cbn [nth_error] in Hi.
        + injection Hi as <-. eauto.
        + eapply IH. exact Hi. }
    destruct Hrev as (v & Hvo). apply (normalize_skills_parsed v o Hvo).
  - rewrite Hsk in Hcol. injection Hcol as <-.
    apply select_incl in Hv. apply repeat_spec in Hv. subst v.
    exists []. split; [reflexivity | constructor].
Qed.

(** A sheet with at least one row gives a table with a company
    column. *)
Lemma load_data_has_company sh df :
  sheet_ok sh = true -> load_data sh = OK df -> nrows sh <> 0 ->
  has_col df (py "company") = true.
Proof.
  intros Hok Hload Hn.
  destruct (load_data_inv sh df Hok Hload) as (keep & _ & _ & Pass & _ & Hkeys & _).
  destruct Hkeys as [Hz|(titles & companies & _ & Hc & _)]; [contradiction|].
  apply has_col_lookup.
  rewrite Pass by (vm_compute; intuition discriminate). rewrite Hc. discriminate.
Qed.

(** X11. On a table [load_data] returns that has a company column (as
    it has whenever the sheet has a row), the filters of [main] never
    raise, whatever is selected, and the list of skills the skills chart
    counts holds no job-type keyword. *)
Theorem chart_skills_without_keywords sh df :
  sheet_ok sh = true -> load_data sh = OK df ->
  has_col df (py "company") = true ->
  forall cities companies job_types,
    exists fdf skills,
      apply_filters df cities companies job_types = OK fdf
      /\ all_skills fdf = OK skills
      /\ Forall (fun skill => mem skill job_type_keywords = false) skills.
Proof.
  intros Hok Hload Hcompany cities companies job_types.
  pose proof (load_data_regular sh df Hok Hload) as Hr.
  destruct (load_data_inv sh df Hok Hload)
    as (keep & _ & _ & _ & _ & _ &
        cs & cos & lists & _ & _ & _ & Hcity & _ & Hli & _).
  assert (Hcomp : lookup (py "company") (columns df) <> None)
    by (apply has_col_lookup; exact Hcompany).
  assert (Hcity' : lookup (py "city") (columns df) <> None) by (rewrite Hcity; discriminate).
  pose proof (apply_filters_mask df cities companies job_types Hr Hcity' Hcomp) as Hf.
  eexists.
  pose proof (apply_filters_restricts _ _ _ _ _ Hf) as Hres.
  destruct (restricts_columns _ _ Hres) as [_ Hcols].
  specialize (Hcols (py "skills_list")). rewrite Hli in Hcols.
  destruct Hcols as (col' & Hcol' & Hincl).
  pose proof (load_data_skills_lists sh df _ Hok Hload Hli) as Hall.
  assert (Hall' : Forall (fun v => exists l, v = ListV l
                     /\ Forall (fun skill => mem skill job_type_keywords = false) l) col').
  { rewrite Forall_forall in *. intros v Hv. apply Hall, Hincl, Hv. }
  destruct (iterate_lists _ col' Hall') as (subs & E & Hs).
  exists (concat subs). split; [exact Hf|]. split; [|exact Hs].
  unfold all_skills, getitem. rewrite Hcol'. cbn [bind]. rewrite E. reflexivity.
Qed.

Lemma chart_skills_without_keywords_witness :
  exists fdf skills,
    apply_filters demo_table [AStr (py "Cairo")] [AStr (py "Acme")] [] = OK fdf
    /\ all_skills fdf = OK skills
    /\ Forall (fun skill => mem skill job_type_keywords = false) skills.
Proof.
  apply (chart_skills_without_keywords demo_sheet demo_table); vm_compute; reflexivity.
Defined.

(** ** [extract_city] and [extract_country] on a whole column *)

Lemma city_of_ok v : is_ok (city_of v) = skills_cell_ok v.
Proof.
  destruct v as [s|z| |]; try reflexivity.
  unfold city_of. cbn [isna]. destruct (contains comma s); reflexivity.
Qed.

Lemma country_of_ok v : is_ok (country_of v) = skills_cell_ok v.
Proof.
  destruct v as [s|z| |]; try reflexivity.
  unfold country_of. cbn [isna]. destruct (contains comma s); reflexivity.
Qed.

Lemma city_of_raises v e : city_of v = Error e -> e = TypeError.
Proof.
  destruct v as [s|z| |]; unfold city_of; cbn [isna]; try congruence.
  destruct (contains comma s); congruence.
Qed.

Lemma country_of_raises v e : country_of v = Error e -> e = TypeError.
Proof.
  destruct v as [s|z| |]; unfold country_of; cbn [isna]; try congruence.
  destruct (contains comma s); congruence.
Qed.

(** X8. Applied to a column as it comes from the sheet, [extract_city]
    and [extract_country] raise [TypeError] when the column holds a
    number; otherwise they return lists with one entry per cell, and a
    missing cell gives ["N/A"] as city, as country and as location. *)
Theorem extract_on_column series :
  if forallb skills_cell_ok series then
    exists cities locations countries,
      extract_city series = OK cities
      /\ extract_country series = OK (locations, countries)
      /\ length cities = length series
      /\ length locations = length series
      /\ length countries = length series
      /\ forall i v, nth_error series i = Some v -> isna v = true ->
           nth_error cities i = Some NA
           /\ nth_error locations i = Some NA
           /\ nth_error countries i = Some NA
  else
    extract_city series = Error TypeError
    /\ extract_country series = Error TypeError.
Proof.
  destruct (forallb skills_cell_ok series) eqn:H.
  - destruct (mapM_all_ok city_of skills_cell_ok series city_of_ok H) as (cities & E1).
    destruct (mapM_all_ok country_of skills_cell_ok series country_of_ok H) as (pairs & E2).
    exists cities, (map fst pairs), (map snd pairs).
    unfold extract_city, extract_country. rewrite E1, E2. cbn [bind].
    pose proof (mapM_length _ _ _ E1) as L1. pose proof (mapM_length _ _ _ E2) as L2.
    split; [reflexivity|]. split; [reflexivity|].
    split; [exact L1|]. rewrite !length_map. split; [exact L2|]. split; [exact L2|].
    intros i v Hi Hna.
    apply mapM_Forall2 in E1, E2.
    destruct (Forall2_nth_error _ _ _ E1 i v Hi) as (c & Hc & Ec).
    destruct (Forall2_nth_error _ _ _ E2 i v Hi) as (pr & Hp & Ep).
    rewrite !nth_error_map, Hc, Hp. cbn [option_map].
    unfold city_of in Ec. unfold country_of in Ep. rewrite Hna in Ec, Ep.
    injection Ec as <-. injection Ep as <-. repeat split.
  - unfold extract_city, extract_country.
    rewrite (mapM_some_bad city_of skills_cell_ok series TypeError
               city_of_ok city_of_raises H).
    rewrite (mapM_some_bad country_of skills_cell_ok series TypeError
               country_of_ok country_of_raises H).
    split; reflexivity.
Qed.

(** X9. The table [load_data] returns has no duplicate left: dropping
    the duplicates on (job_title, company) once more, as line 105 does,
    returns the very same table. *)
Theorem load_data_no_duplicates_left sh out :
  sheet_ok sh = true -> load_data sh = OK out ->
  drop_duplicates out (py "job_title") (py "company") = OK out.
Proof.
  intros Hok H. unfold load_data in H.
  inv_bind H. inv_bind H.
  eapply drop_duplicates_idempotent; [|exact H].
  apply regular_drop.
  eapply clean_skills_column_regular; [|exact E0].
  eapply clean_location_regular; [|exact E].
  apply regular_sheet, Hok.
Qed.

Lemma load_data_no_duplicates_left_witness :
  drop_duplicates demo_table (py "job_title") (py "company") = OK demo_table.
Proof.
  apply (load_data_no_duplicates_left demo_sheet demo_table); vm_compute; reflexivity.
Defined.

